(** * Verification of the gwasprs regression and aggregation core

    The development follows [gwasprs/regression.py] class by class.
    Python exceptions are values of [exn]; a call that may raise returns a
    [result].  Functions of the modules [gwasprs.linalg], [gwasprs.stats]
    and [gwasprs.aggregations], whose sources are not part of the tree, are
    either section variables or definitions written from the specification
    (each such definition says so). *)

From Stdlib Require Import String ZArith List Lia Bool Sorted.
From Stdlib Require PrimFloat.
Import ListNotations.
#[local] Set Warnings "-register-all".
Open Scope Z_scope.

(** ** Python results and exceptions *)

Inductive exn : Type :=
| ValueError (msg : string)
| NotImplementedError
| AttributeError (name : string)
| TypeError
| IndexError
| ZeroDivisionError
| LinAlgError.

Inductive result (A : Type) : Type :=
| Ok (a : A)
| Raise (e : exn).
Arguments Ok {A} a.
Arguments Raise {A} e.

Definition bind {A B : Type} (r : result A) (k : A -> result B) : result B :=
  match r with
  | Ok a => k a
  | Raise e => Raise e
  end.

Notation "x <- c ;; k" := (bind c (fun x => k))
  (at level 61, c at next level, right associativity).

(** ** Lists combined position by position *)

Fixpoint zip_with {A B C : Type} (f : A -> B -> C) (xs : list A) (ys : list B)
  : list C :=
  match xs, ys with
  | x :: xs', y :: ys' => f x y :: zip_with f xs' ys'
  | _, _ => []
  end.

Lemma zip_with_length {A B C : Type} (f : A -> B -> C) (xs : list A)
    (ys : list B) :
  length xs = length ys -> length (zip_with f xs ys) = length xs.
Proof.
  revert ys. induction xs as [|x xs IH]; intros [|y ys] H; simpl in *;
    try reflexivity; try discriminate.
  f_equal. apply IH. now injection H.
Qed.

Lemma zip_with_app {A B C : Type} (f : A -> B -> C) (xs xs' : list A)
    (ys ys' : list B) :
  length xs = length ys ->
  zip_with f (xs ++ xs') (ys ++ ys') = zip_with f xs ys ++ zip_with f xs' ys'.
Proof.
  revert ys. induction xs as [|x xs IH]; intros [|y ys] H; simpl in *;
    try reflexivity; try discriminate.
  f_equal. apply IH. now injection H.
Qed.

Lemma firstn_plus {T : Type} (n m : nat) (l : list T) :
  firstn (n + m) l = firstn n l ++ firstn m (skipn n l).
Proof.
  revert l. induction n as [|n IH]; intros [|x l]; simpl;
    try reflexivity.
  - now rewrite firstn_nil.
  - now rewrite IH.
Qed.

(** ** Aggregation primitives *)

Module Aggregations.

Definition mem (x : Z) (l : list Z) : bool := existsb (Z.eqb x) l.

(** Position of the first occurrence of [x] in [l] ([length l] if absent). *)
Fixpoint index_of (x : Z) (l : list Z) : nat :=
  match l with
  | [] => O
  | y :: l' => if Z.eqb x y then O else S (index_of x l')
  end.

(** Modelled from the spec: [gwasprs.aggregations.Intersect] is missing from
    the sources (only its test is present).  The first array is walked from
    left to right; a value is kept when it occurs in every other argument and
    has not been kept before. *)
Fixpoint keep_first (others : list (list Z)) (seen : list Z) (A : list Z)
  : list Z :=
  match A with
  | [] => []
  | x :: A' =>
      if forallb (mem x) others && negb (mem x seen)
      then x :: keep_first others (x :: seen) A'
      else keep_first others seen A'
  end.

(** Modelled from the spec: [Intersect()(A, B, *rest)] on integer arrays;
    two or more arguments are required, hence [A], [B] and the others. *)
Definition Intersect (A B : list Z) (rest : list (list Z)) : list Z :=
  keep_first (B :: rest) [] A.

Lemma mem_In (x : Z) (l : list Z) : mem x l = true <-> In x l.
Proof.
  unfold mem. rewrite existsb_exists. split.
  - intros [y [Hy He]]. apply Z.eqb_eq in He. now subst.
  - intros H. exists x. split; [exact H | apply Z.eqb_refl].
Qed.

Lemma mem_false (x : Z) (l : list Z) : mem x l = false <-> ~ In x l.
Proof.
  rewrite <- mem_In. destruct (mem x l); split; congruence.
Qed.

Lemma in_all_spec (x : Z) (others : list (list Z)) :
  forallb (mem x) others = true <-> (forall Y, In Y others -> In x Y).
Proof.
  rewrite forallb_forall. split; intros H Y HY.
  - apply mem_In. now apply H.
  - apply mem_In. now apply H.
Qed.

Lemma keep_first_In (others : list (list Z)) (A seen : list Z) (x : Z) :
  In x (keep_first others seen A) <->
  In x A /\ ~ In x seen /\ (forall Y, In Y others -> In x Y).
Proof.
  revert seen. induction A as [|a A IH]; intros seen; simpl.
  - tauto.
  - destruct (forallb (mem a) others) eqn:Hall;
      destruct (mem a seen) eqn:Hseen; simpl.
    + rewrite IH. apply mem_In in Hseen.
      split.
      * intros (H1 & H2 & H3). tauto.
      * intros ([E | H1] & H2 & H3); [subst; contradiction | tauto].
    + rewrite IH. apply mem_false in Hseen.
      pose proof (proj1 (in_all_spec a others) Hall) as Hall'. simpl.
      split.
      * intros [E | (H1 & H2 & H3)].
        -- subst. tauto.
        -- tauto.
      * intros ([E | H1] & H2 & H3); [now left |].
        destruct (Z.eq_dec a x) as [E | N]; [now left | right].
        repeat split; try assumption. intros [E | H]; [contradiction | tauto].
    + rewrite IH. split.
      * intros (H1 & H2 & H3). tauto.
      * intros ([E | H1] & H2 & H3); [| tauto].
        subst. pose proof (proj2 (in_all_spec _ _) H3). congruence.
    + rewrite IH. split.
      * intros (H1 & H2 & H3). tauto.
      * intros ([E | H1] & H2 & H3); [| tauto].
        subst. pose proof (proj2 (in_all_spec _ _) H3). congruence.
Qed.

Lemma index_of_cons_neq (x a : Z) (l : list Z) :
  x <> a -> index_of x (a :: l) = S (index_of x l).
Proof.
  intros N. simpl. destruct (Z.eqb_spec x a); [contradiction | reflexivity].
Qed.

Lemma StronglySorted_ext {T : Type} (R R' : T -> T -> Prop) (l : list T) :
  (forall x y, In x l -> In y l -> R x y -> R' x y) ->
  StronglySorted R l -> StronglySorted R' l.
Proof.
  intros Hext Hs. induction Hs as [|a l Hs IH Hall].
  - constructor.
  - constructor.
    + apply IH. intros x y Hx Hy. apply Hext; now right.
    + rewrite Forall_forall in *. intros y Hy.
      apply Hext; [now left | now right | now apply Hall].
Qed.

Lemma keep_first_sorted (others : list (list Z)) (A seen : list Z) :
  StronglySorted (fun x y => (index_of x A < index_of y A)%nat)
                 (keep_first others seen A).
Proof.
  revert seen. induction A as [|a A IH]; intros seen; simpl keep_first.
  - constructor.
  - assert (Hshift : forall s,
      (forall y, In y (keep_first others s A) -> y <> a) ->
      StronglySorted (fun x y => (index_of x (a :: A) < index_of y (a :: A))%nat)
                     (keep_first others s A)).
    { intros s Hne. eapply StronglySorted_ext; [| apply (IH s)].
      intros x y Hx Hy Hlt. cbv beta in *.
      rewrite !index_of_cons_neq by auto. lia. }
    destruct (forallb (mem a) others) eqn:Hall;
      destruct (mem a seen) eqn:Hseen; cbn [andb negb].
    + apply Hshift. intros y Hy E. subst y.
      apply keep_first_In in Hy. apply mem_In in Hseen. tauto.
    + assert (Hne : forall y, In y (keep_first others (a :: seen) A) -> y <> a).
      { intros y Hy E. subst y. apply keep_first_In in Hy.
        simpl in Hy. tauto. }
      constructor.
      * now apply Hshift.
      * rewrite Forall_forall. intros y Hy.
        rewrite (index_of_cons_neq y a) by auto.
        cbn [index_of]. rewrite Z.eqb_refl. lia.
    + apply Hshift. intros y Hy E. subst y.
      apply keep_first_In in Hy. destruct Hy as (_ & _ & H3).
      pose proof (proj2 (in_all_spec _ _) H3). congruence.
    + apply Hshift. intros y Hy E. subst y.
      apply keep_first_In in Hy. destruct Hy as (_ & _ & H3).
      pose proof (proj2 (in_all_spec _ _) H3). congruence.
Qed.

(** C1: [Intersect(A, B, ...)] holds exactly the values of [A] that occur in
    every other argument, each once, listed by increasing position of their
    first occurrence in [A]; on the arrays of the test it is
    [[2,5,1,7,0,10]]. *)
Theorem Intersect_spec :
  (forall (A B : list Z) (rest : list (list Z)),
      (forall x, In x (Intersect A B rest) <->
                 In x A /\ forall Y, In Y (B :: rest) -> In x Y) /\
      StronglySorted (fun x y => (index_of x A < index_of y A)%nat)
                     (Intersect A B rest) /\
      NoDup (Intersect A B rest)) /\
  Intersect [2; 2; 5; 1; 7; 0; 10]
            [1; 2; 3; 4; 4; 5; 7; 10; 0]
            [[0; 1; 2; 3; 4; 5; 6; 7; 10]] = [2; 5; 1; 7; 0; 10].
Proof.
  split; [| reflexivity].
  intros A B rest.
  assert (Hs := keep_first_sorted (B :: rest) A []).
  fold (Intersect A B rest) in Hs.
  split; [| split].
  - intros x. unfold Intersect. rewrite keep_first_In. simpl. tauto.
  - exact Hs.
  - induction Hs as [|a l Hs IH Hall]; constructor.
    + intros Hin. rewrite Forall_forall in Hall.
      specialize (Hall a Hin). lia.
    + exact IH.
Qed.


(** *** SumUp *)

(** Position-wise combination of two sequences by a function that may raise;
    sequences of different lengths are rejected. *)
Definition zip_result {A B C : Type} (f : A -> B -> result C)
  : list A -> list B -> result (list C) :=
  fix go (xs : list A) (ys : list B) : result (list C) :=
    match xs, ys with
    | [], [] => Ok []
    | x :: xs', y :: ys' =>
        r <- f x y ;; rs <- go xs' ys' ;; Ok (r :: rs)
    | _, _ => Raise (ValueError "sequences differ in length")
    end.

Section SumUp.

(** The numbers being summed and their addition (Python [+] on [int] or
    [float]); no law of arithmetic is assumed. *)
Variable num : Type.
Variable add : num -> num -> num.

(** A numeric array: its shape and its entries in row-major order. *)
Record ndarray : Type := mk_ndarray { shape : list nat; data : list num }.

(** What a site contributes: a plain number, an array, or an ordered
    sequence of contributions. *)
Inductive contribution : Type :=
| Number (x : num)
| Array (a : ndarray)
| Sequence (xs : list contribution).

(** The container shape of a contribution, without its numbers. *)
Inductive skeleton : Type :=
| SNumber
| SArray (dims : list nat) (size : nat)
| SSequence (ss : list skeleton).

Fixpoint shape_of (c : contribution) : skeleton :=
  match c with
  | Number _ => SNumber
  | Array a => SArray (shape a) (length (data a))
  | Sequence xs => SSequence (map shape_of xs)
  end.

(** The numbers of a contribution, left to right. *)
Fixpoint leaves (c : contribution) : list num :=
  match c with
  | Number x => [x]
  | Array a => data a
  | Sequence xs => flat_map leaves xs
  end.

Fixpoint skeleton_size (s : skeleton) : nat :=
  match s with
  | SNumber => 1
  | SArray _ n => n
  | SSequence ss => list_sum (map skeleton_size ss)
  end.

Definition same_dims (a b : ndarray) : bool :=
  if list_eq_dec Nat.eq_dec (shape a) (shape b)
  then Nat.eqb (length (data a)) (length (data b))
  else false.

(** Modelled from the spec: the sum of two contributions of
    [gwasprs.aggregations.SumUp] (missing from the sources): numbers are
    added, arrays of one shape are added entry by entry, sequences are
    added position by position; anything else is outside the contract. *)
Fixpoint add2 (a b : contribution) : result contribution :=
  match a, b with
  | Number x, Number y => Ok (Number (add x y))
  | Array x, Array y =>
      if same_dims x y
      then Ok (Array (mk_ndarray (shape x) (zip_with add (data x) (data y))))
      else Raise (ValueError "operands could not be broadcast together")
  | Sequence xs, Sequence ys =>
      rs <- zip_result add2 xs ys ;; Ok (Sequence rs)
  | _, _ => Raise NotImplementedError
  end.

(** Modelled from the spec: [SumUp()(a, b, *rest)], the contributions
    summed from left to right. *)
Definition SumUp (a b : contribution) (rest : list contribution)
  : result contribution :=
  fold_left (fun acc x => r <- acc ;; add2 r x) rest (add2 a b).

(** Induction over contributions, with the hypothesis for every member of
    a sequence. *)
Fixpoint contribution_ind' (P : contribution -> Prop)
    (HN : forall x, P (Number x))
    (HA : forall a, P (Array a))
    (HS : forall xs, Forall P xs -> P (Sequence xs))
    (c : contribution) {struct c} : P c :=
  match c with
  | Number x => HN x
  | Array a => HA a
  | Sequence xs =>
      HS xs ((fix all (l : list contribution) : Forall P l :=
                match l with
                | [] => Forall_nil P
                | y :: l' =>
                    Forall_cons y (contribution_ind' P HN HA HS y) (all l')
                end) xs)
  end.

Lemma leaves_length (c : contribution) :
  length (leaves c) = skeleton_size (shape_of c).
Proof.
  induction c as [x | a | xs IH] using contribution_ind'; simpl;
    try reflexivity.
  induction IH as [|y ys Hy _ IHys]; simpl; [reflexivity |].
  rewrite length_app, Hy, IHys. reflexivity.
Qed.

Lemma same_shape_length (a b : contribution) :
  shape_of a = shape_of b -> length (leaves a) = length (leaves b).
Proof. intros H. rewrite !leaves_length. now rewrite H. Qed.

(** Two contributions of one shape are summed leaf by leaf and the sum
    has their shape. *)
Lemma add2_spec (a : contribution) :
  forall b, shape_of a = shape_of b ->
  exists r, add2 a b = Ok r /\ shape_of r = shape_of a /\
            leaves r = zip_with add (leaves a) (leaves b).
Proof.
  induction a as [x | x | xs IH] using contribution_ind';
    intros [y | y | ys] H; simpl in H; try discriminate.
  - eexists. repeat split.
  - injection H as Hs Hl. simpl. unfold same_dims.
    destruct (list_eq_dec Nat.eq_dec (shape x) (shape y)) as [_ | N];
      [| contradiction].
    rewrite Hl, Nat.eqb_refl. eexists. split; [reflexivity |].
    simpl. split; [| reflexivity].
    f_equal. now rewrite zip_with_length.
  - injection H as H.
    assert (Hseq : exists rs, zip_result add2 xs ys = Ok rs /\
              map shape_of rs = map shape_of xs /\
              flat_map leaves rs
              = zip_with add (flat_map leaves xs) (flat_map leaves ys)).
    { revert ys H. induction IH as [|x xs Hx _ IHxs]; intros [|y ys] H;
        simpl in H; try discriminate.
      - exists []. repeat split.
      - injection H as Hxy Hrest.
        destruct (Hx y Hxy) as (r & Er & Sr & Lr).
        destruct (IHxs ys Hrest) as (rs & Ers & Srs & Lrs).
        exists (r :: rs). simpl. rewrite Er. simpl.
        rewrite Ers. simpl. split; [reflexivity |].
        split; [now rewrite Sr, Srs |].
        rewrite Lr, Lrs, zip_with_app; [reflexivity |].
        now apply same_shape_length. }
    destruct Hseq as (rs & Ers & Srs & Lrs).
    exists (Sequence rs). simpl. rewrite Ers. simpl.
    split; [reflexivity |]. split; [now rewrite Srs | exact Lrs].
Qed.

(** C9: contributions of one shape (numbers, arrays, or sequences) are
    summed element by element: the result of [SumUp] has the shape of the
    contributions and its numbers are those of the first two added, then
    each further contribution added in turn, position by position; for
    three contributions every position holds [(a + b) + c]. *)
Theorem SumUp_spec (a b : contribution) (rest : list contribution) :
  shape_of a = shape_of b ->
  Forall (fun c => shape_of c = shape_of a) rest ->
  exists r, SumUp a b rest = Ok r /\ shape_of r = shape_of a /\
    leaves r = fold_left (fun acc c => zip_with add acc (leaves c)) rest
                         (zip_with add (leaves a) (leaves b)).
Proof.
  intros Hab Hrest. unfold SumUp.
  destruct (add2_spec a b Hab) as (r0 & E0 & S0 & L0).
  rewrite E0, <- L0. rewrite <- S0 in Hrest |- *. clear E0 L0 S0 Hab.
  revert r0 Hrest. induction rest as [|c rest IH]; intros r0 Hrest; simpl.
  - exists r0. repeat split.
  - inversion Hrest as [|c' rest' Hc Hrest']; subst.
    destruct (add2_spec r0 c (eq_sym Hc)) as (r1 & E1 & S1 & L1).
    rewrite E1, <- L1. rewrite <- S1 in Hrest' |- *.
    apply IH. exact Hrest'.
Qed.

End SumUp.

Arguments Number {num} x.
Arguments Array {num} a.
Arguments Sequence {num} xs.
Arguments mk_ndarray {num} shape data.

(** The shape of [test_sum_of_list_of_numpy_arrays], with integer entries:
    two sequences of two arrays each. *)
Example SumUp_lists :
  SumUp Z Z.add
    (Sequence [Array (mk_ndarray [2%nat] [1; 2]); Array (mk_ndarray [2%nat] [3; 4])])
    (Sequence [Array (mk_ndarray [2%nat] [10; 20]); Array (mk_ndarray [2%nat] [10; 20])])
    []
  = Ok (Sequence [Array (mk_ndarray [2%nat] [11; 22]);
                  Array (mk_ndarray [2%nat] [13; 24])]).
Proof. reflexivity. Qed.

Lemma SumUp_spec_witness :
  exists r,
    SumUp Z Z.add (Sequence [Array (mk_ndarray [2%nat] [1; 2]); Number 5])
                  (Sequence [Array (mk_ndarray [2%nat] [10; 20]); Number 50])
                  [Sequence [Array (mk_ndarray [2%nat] [100; 200]); Number 500]]
    = Ok r /\
    shape_of Z r
    = shape_of Z (Sequence [Array (mk_ndarray [2%nat] [1; 2]); Number 5]) /\
    leaves Z r = [111; 222; 555].
Proof.
  apply (SumUp_spec Z Z.add
           (Sequence [Array (mk_ndarray [2%nat] [1; 2]); Number 5])
           (Sequence [Array (mk_ndarray [2%nat] [10; 20]); Number 50])
           [Sequence [Array (mk_ndarray [2%nat] [100; 200]); Number 500]]).
  - reflexivity.
  - repeat constructor.
Defined.

End Aggregations.


(** ** The module [gwasprs.utils] *)

Module Utils.

(** The callables that [gwasprs/utils.py] defines. *)
Inductive member : Type := jax_dev_count | bash.

(** Attribute access [utils.<name>]. *)
Definition getattr (name : string) : result member :=
  if String.eqb name "jax_dev_count" then Ok jax_dev_count
  else if String.eqb name "bash" then Ok bash
  else Raise (AttributeError name).

(** The call [utils.<name>()] without arguments; [device_count] stands for
    the value of [jax.device_count()]. *)
Definition call0 (device_count : nat) (name : string) : result nat :=
  f <- getattr name ;;
  match f with
  | jax_dev_count => Ok device_count
  | bash => Raise TypeError
  end.

End Utils.

(** ** Regression models *)

Module Regression.

(** The solver classes of [gwasprs.linalg]. *)
Inductive solver : Type :=
| InverseSolver
| CholeskySolver
| QRSolver
| BatchedInverseSolver
| BatchedCholeskySolver.

(** [isinstance(algo, linalg.QRSolver)]. *)
Definition isinstance_QRSolver (algo : solver) : bool :=
  match algo with
  | QRSolver => true
  | _ => false
  end.

(** Python's [a % n] on integers. *)
Definition py_mod (a n : Z) : result Z :=
  if Z.eqb n 0 then Raise ZeroDivisionError else Ok (a mod n).

(** Python's [a // n] on integers. *)
Definition py_floordiv (a n : Z) : result Z :=
  if Z.eqb n 0 then Raise ZeroDivisionError else Ok (a / n).

(** Python's [divmod(a, n)] on non-negative integers. *)
Definition py_divmod (a n : nat) : result (nat * nat) :=
  if Nat.eqb n 0 then Raise ZeroDivisionError
  else Ok (Nat.div a n, Nat.modulo a n).

Section Models.

(** Arrays of numpy and jax, with their [shape]. *)
Variable array : Type.
Variable shape : array -> list nat.

(** A Python value that is an array or [None]. *)
Definition pyarray : Type := option array.

(** A numerical kernel applied to [None] raises [TypeError]. *)
Definition as_array (v : pyarray) : result array :=
  match v with
  | Some a => Ok a
  | None => Raise TypeError
  end.

(** [v.shape[0]] and [v.shape[-1]]. *)
Definition shape_first (v : pyarray) : result nat :=
  match v with
  | None => Raise (AttributeError "shape")
  | Some a => match shape a with
              | [] => Raise IndexError
              | n :: _ => Ok n
              end
  end.

Definition shape_last (v : pyarray) : result nat :=
  match v with
  | None => Raise (AttributeError "shape")
  | Some a => match rev (shape a) with
              | [] => Raise IndexError
              | n :: _ => Ok n
              end
  end.

(** *** Calls into [gwasprs.linalg] and [gwasprs.stats]

    The sources of both modules are missing; their functions are
    parameters.  A function that can fail returns a [result]. *)

(** [algo(A, b)] for a solver object [algo]. *)
Variable call_solver : solver -> array -> array -> result array.
Variable unnorm_autocovariance : array -> result array.
Variable unnorm_covariance : array -> array -> result array.
Variable batched_unnorm_autocovariance : array -> result array.
Variable batched_unnorm_covariance : array -> array -> result array.
Variable mvmul : array -> array -> result array.
Variable batched_mvmul : array -> array -> result array.
Variable logistic_predict : array -> array -> result array.
Variable logistic_hessian : array -> array -> result array.
Variable batched_logistic_predict : array -> array -> result array.
Variable batched_logistic_residual : array -> array -> result array.
Variable batched_logistic_gradient : array -> array -> result array.
Variable batched_logistic_hessian : array -> array -> result array.

(** Array operations of numpy and jax used by the models. *)
Variable transpose : array -> array.                   (* [X.T] *)
Variable expand_dims : array -> array.                 (* [expand_dims(., -1)] *)
Variable add : array -> array -> result array.         (* [a + b] *)
Variable sub : array -> array -> result array.         (* [a - b] *)
Variable matmul : array -> array -> result array.      (* [a @ b] *)
(** [.toarray()] of a sparse matrix; an [ndarray] has no such method and
    the call raises [AttributeError]. *)
Variable toarray : array -> result array.
Variable sigmoid : array -> array.                     (* [1 / (1 + exp(-z))] *)
Variable take0 : nat -> array -> array.                (* [a[:k]] *)
Variable drop0 : nat -> array -> array.                (* [a[k:]] *)
Variable reshape : array -> list Z -> result array.    (* [np.reshape] *)
Variable concatenate : array -> array -> result array. (* axis 0 *)
(** [pmap(f, in_axes=(0, 0), out_axes=0)]. *)
Variable pmap :
  (array -> array -> result array) -> array -> array -> result array.

(** The value of [jax.device_count()]. *)
Variable device_count : nat.

(** *** Computations that call solvers

    A computation carries the log of the solver calls made so far and
    returns a value or raises. *)

Inductive event : Type :=
| Solve (algo : solver) (A b : array).

Definition M (T : Type) : Type := list event -> result T * list event.

Definition ret {T : Type} (x : T) : M T := fun log => (Ok x, log).

Definition raise {T : Type} (e : exn) : M T := fun log => (Raise e, log).

Definition lift {T : Type} (r : result T) : M T := fun log => (r, log).

Definition mbind {T U : Type} (c : M T) (k : T -> M U) : M U :=
  fun log =>
    match c log with
    | (Ok x, log') => k x log'
    | (Raise e, log') => (Raise e, log')
    end.

(** [try: c except: h] with a bare [except]. *)
Definition mtry {T : Type} (c h : M T) : M T :=
  fun log =>
    match c log with
    | (Ok x, log') => (Ok x, log')
    | (Raise _, log') => h log'
    end.

(** The call [algo(A, b)], logged. *)
Definition solve (algo : solver) (A b : array) : M array :=
  fun log => (call_solver algo A b, log ++ [Solve algo A b]).

Notation "'let!' x ':=' c 'in' k" := (mbind c (fun x => k))
  (at level 10, x name, c at level 100, k at level 200, only parsing).

(** *** class LinearRegression *)

Record LinearRegression : Type := mk_LinearRegression {
  lin_beta : pyarray;
  lin_include_bias : bool
}.

Definition LinearRegression_init (beta XtX Xty : pyarray) (algo : solver)
    (include_bias : bool) : M LinearRegression :=
  match beta with
  | None =>
      match XtX, Xty with
      | Some xtx, Some xty =>
          if isinstance_QRSolver algo
          then raise (ValueError "QRSolver is not supported in constructor.")
          else
            let! b := solve algo xtx xty in
            ret (mk_LinearRegression (Some b) include_bias)
      | _, _ =>
          raise (ValueError
                   "Must provide XtX and Xty, since beta is not provided.")
      end
  | Some b => ret (mk_LinearRegression (Some b) include_bias)
  end.

Definition LinearRegression_coef (self : LinearRegression) : pyarray :=
  lin_beta self.

Definition LinearRegression_dof (self : LinearRegression) (nobs : Z)
  : result Z :=
  p <- shape_first (lin_beta self) ;;
  let k := Z.of_nat p + Z.b2z (lin_include_bias self) in
  Ok (nobs - k).

Definition LinearRegression_fit (X y : array) (algo : solver)
    (include_bias : bool) : M LinearRegression :=
  let! beta :=
    (if isinstance_QRSolver algo
     then solve algo X y
     else
       let! xtx := lift (unnorm_autocovariance X) in
       let! xty := lift (unnorm_covariance X y) in
       solve algo xtx xty) in
  LinearRegression_init (Some beta) None None CholeskySolver include_bias.

(** *** class BatchedLinearRegression *)

Record BatchedLinearRegression : Type := mk_BatchedLinearRegression {
  bat_beta : pyarray;
  bat_include_bias : bool
}.

Definition BatchedLinearRegression_init (beta XtX Xty : pyarray)
    (algo : solver) (include_bias : bool) : M BatchedLinearRegression :=
  match beta with
  | None =>
      match XtX, Xty with
      | Some xtx, Some xty =>
          if isinstance_QRSolver algo
          then raise (ValueError "QRSolver is not supported in constructor.")
          else
            let! b := solve algo xtx xty in
            ret (mk_BatchedLinearRegression (Some b) include_bias)
      | _, _ =>
          raise (ValueError
                   "Must provide XtX and Xty, since beta is not provided.")
      end
  | Some b => ret (mk_BatchedLinearRegression (Some b) include_bias)
  end.

Definition BatchedLinearRegression_coef (self : BatchedLinearRegression)
  : pyarray := bat_beta self.

Definition BatchedLinearRegression_dof (self : BatchedLinearRegression)
    (nobs : Z) : result Z :=
  p <- shape_last (BatchedLinearRegression_coef self) ;;
  let k := Z.of_nat p + Z.b2z (bat_include_bias self) in
  Ok (nobs - k).

(** [batch, nsample, ndims = X.shape]. *)
Definition unpack3 (X : array) : result (nat * nat * nat) :=
  match shape X with
  | [batch; nsample; ndims] => Ok (batch, nsample, ndims)
  | _ => Raise (ValueError "not enough values to unpack")
  end.

Definition BatchedLinearRegression_predict (self : BatchedLinearRegression)
    (X : array) (acceleration : string) : result array :=
  if String.eqb acceleration "single" then
    coef <- as_array (BatchedLinearRegression_coef self) ;;
    batched_mvmul X coef
  else if String.eqb acceleration "pmap" then
    let pmap_func := pmap batched_mvmul in
    ncores <- Utils.call0 device_count "jax_cpu_cores" ;;
    dims <- unpack3 X ;;
    let '(batch, nsample, ndims) := dims in
    qr <- py_divmod batch ncores ;;
    let '(minibatch, remainder) := qr in
    A <- reshape (take0 (minibatch * ncores) X)
           [Z.of_nat ncores; Z.of_nat minibatch;
            Z.of_nat nsample; Z.of_nat ndims] ;;
    coef <- as_array (BatchedLinearRegression_coef self) ;;
    a <- reshape (take0 (minibatch * ncores) coef)
           [Z.of_nat ncores; Z.of_nat minibatch; Z.of_nat ndims] ;;
    P <- pmap_func A a ;;
    Y <- reshape P [-1; Z.of_nat nsample] ;;
    if negb (Nat.eqb remainder 0) then
      let B := drop0 (minibatch * ncores) X in
      let b := drop0 (minibatch * ncores) coef in
      Z <- batched_mvmul B b ;;
      concatenate Y Z
    else Ok Y
  else
    Raise (ValueError (acceleration ++ " acceleration is not supported.")).

Definition BatchedLinearRegression_fit (X y : array) (algo : solver)
    (include_bias : bool) : M BatchedLinearRegression :=
  if isinstance_QRSolver algo
  then raise (ValueError "QRSolver is not supported.")
  else
    let! xtx := lift (batched_unnorm_autocovariance X) in
    let! xty := lift (batched_unnorm_covariance X y) in
    let! beta := solve algo xtx xty in
    BatchedLinearRegression_init (Some beta) None None
      BatchedCholeskySolver include_bias.

(** *** class BlockedLinearRegression *)

Record BlockedLinearRegression : Type := mk_BlockedLinearRegression {
  blk_beta : pyarray;
  blk_nmodels : Z
}.

Definition BlockedLinearRegression_init (beta XtX Xty : pyarray)
    (nmodels : Z) (algo : solver) : M BlockedLinearRegression :=
  match beta with
  | None =>
      match XtX, Xty with
      | Some xtx, Some xty =>
          if isinstance_QRSolver algo
          then raise (ValueError "QRSolver is not supported in constructor.")
          else
            let! n := lift (shape_first (Some xtx)) in
            let! r := lift (py_mod (Z.of_nat n) nmodels) in
            if negb (Z.eqb r 0)
            then raise (ValueError
                   "Dimension of XtX is not divisible by number of models.")
            else
              let! b := solve algo xtx xty in
              ret (mk_BlockedLinearRegression (Some b) nmodels)
      | _, _ =>
          raise (ValueError
                   "Must provide XtX and Xty, since beta is not provided.")
      end
  | Some b =>
      let! n := lift (shape_first (Some b)) in
      let! r := lift (py_mod (Z.of_nat n) nmodels) in
      if negb (Z.eqb r 0)
      then raise (ValueError
             "Dimension of beta is not divisible by number of models.")
      else ret (mk_BlockedLinearRegression (Some b) nmodels)
  end.

Definition BlockedLinearRegression_coef (self : BlockedLinearRegression)
  : pyarray := blk_beta self.

Definition BlockedLinearRegression_coef_dim (self : BlockedLinearRegression)
  : result Z :=
  n <- shape_first (blk_beta self) ;;
  py_floordiv (Z.of_nat n) (blk_nmodels self).

Definition BlockedLinearRegression_dof (self : BlockedLinearRegression)
    (nobs : Z) : result Z :=
  k <- BlockedLinearRegression_coef_dim self ;;
  Ok (nobs - k).

Definition BlockedLinearRegression_fit (X y : array) (nmodels : Z)
    (algo : solver) : M BlockedLinearRegression :=
  let! beta :=
    (if isinstance_QRSolver algo
     then solve algo X y
     else
       let! xtx := lift (matmul (transpose X) X) in
       let! dense := lift (toarray xtx) in
       let! xty := lift (matmul (transpose X) y) in
       solve algo dense xty) in
  BlockedLinearRegression_init (Some beta) None None nmodels CholeskySolver.

(** *** class LogisticRegression *)

Record LogisticRegression : Type := mk_LogisticRegression {
  log_beta : pyarray
}.

Definition LogisticRegression_init (beta : pyarray) : M LogisticRegression :=
  ret (mk_LogisticRegression beta).

Definition LogisticRegression_predict (self : LogisticRegression) (X : array)
  : result array :=
  beta <- as_array (log_beta self) ;;
  predicted_y <- logistic_predict X beta ;;
  Ok (expand_dims predicted_y).

Definition LogisticRegression_residual (self : LogisticRegression)
    (X y : array) : result array :=
  yhat <- LogisticRegression_predict self X ;;
  sub (expand_dims y) yhat.

Definition LogisticRegression_gradient (self : LogisticRegression)
    (X y : array) : result array :=
  res <- LogisticRegression_residual self X y ;;
  mvmul (transpose X) res.

Definition LogisticRegression_hessian (self : LogisticRegression) (X : array)
  : result array :=
  yhat <- LogisticRegression_predict self X ;;
  logistic_hessian X yhat.

(** The method [beta(gradient, hessian, solver)]. *)
Definition LogisticRegression_beta (self : LogisticRegression)
    (gradient hessian : array) (solver_ : solver) : M array :=
  let! b := lift (as_array (log_beta self)) in
  let! step := solve solver_ hessian gradient in
  lift (add (expand_dims b) step).

(** [fit] returns the object after the assignment to its coefficient. *)
Definition LogisticRegression_fit (self : LogisticRegression) (X y : array)
  : M LogisticRegression :=
  let! grad := lift (LogisticRegression_gradient self X y) in
  let! H := lift (LogisticRegression_hessian self X) in
  let! b := LogisticRegression_beta self grad H CholeskySolver in
  ret (mk_LogisticRegression (Some b)).

(** *** class BatchedLogisticRegression *)

Record BatchedLogisticRegression : Type := mk_BatchedLogisticRegression {
  blog_beta : pyarray;
  blog_acceleration : string
}.

Definition BatchedLogisticRegression_init (beta : pyarray)
    (acceleration : string) : M BatchedLogisticRegression :=
  ret (mk_BatchedLogisticRegression beta acceleration).

Definition BatchedLogisticRegression_predict
    (self : BatchedLogisticRegression) (X : array) : result array :=
  if String.eqb (blog_acceleration self) "single" then
    beta <- as_array (blog_beta self) ;;
    z <- batched_mvmul X beta ;;
    let predicted_y := sigmoid z in
    Ok (expand_dims predicted_y)
  else if String.eqb (blog_acceleration self) "pmap" then
    let pmap_func := pmap batched_logistic_predict in
    ncores <- Utils.call0 device_count "jax_cpu_cores" ;;
    dims <- unpack3 X ;;
    let '(batch, nsample, ndims) := dims in
    qr <- py_divmod batch ncores ;;
    let '(minibatch, remainder) := qr in
    A <- reshape (take0 (minibatch * ncores) X)
           [Z.of_nat ncores; Z.of_nat minibatch;
            Z.of_nat nsample; Z.of_nat ndims] ;;
    beta <- as_array (blog_beta self) ;;
    a <- reshape (take0 (minibatch * ncores) beta)
           [Z.of_nat ncores; Z.of_nat minibatch; Z.of_nat ndims] ;;
    P <- pmap_func A a ;;
    Y <- reshape P [-1; Z.of_nat nsample] ;;
    Y' <- (if negb (Nat.eqb remainder 0) then
             let B := drop0 (minibatch * ncores) X in
             let b := drop0 (minibatch * ncores) beta in
             Z <- batched_logistic_predict B b ;;
             concatenate Y Z
           else Ok Y) ;;
    Ok (expand_dims Y')
  else
    Raise (ValueError (blog_acceleration self
                       ++ " acceleration is not supported.")).

Definition BatchedLogisticRegression_residual
    (self : BatchedLogisticRegression) (X y : array) : result array :=
  yhat <- BatchedLogisticRegression_predict self X ;;
  batched_logistic_residual y yhat.

Definition BatchedLogisticRegression_gradient
    (self : BatchedLogisticRegression) (X y : array) : result array :=
  res <- BatchedLogisticRegression_residual self X y ;;
  batched_logistic_gradient X res.

Definition BatchedLogisticRegression_hessian
    (self : BatchedLogisticRegression) (X : array) : result array :=
  yhat <- BatchedLogisticRegression_predict self X ;;
  batched_logistic_hessian X yhat.

(** One attempt of the update: [self.__beta + solver(hessian, gradient)]. *)
Definition beta_plus_step (beta : pyarray) (solver_ : solver)
    (gradient hessian : array) : M array :=
  let! step := solve solver_ hessian gradient in
  let! b := lift (as_array beta) in
  lift (add b step).

Definition BatchedLogisticRegression_beta
    (self : BatchedLogisticRegression) (gradient hessian : array)
    (solver_ : solver) : M array :=
  mtry (beta_plus_step (blog_beta self) solver_ gradient hessian)
       (let solver_ := BatchedInverseSolver in
        beta_plus_step (blog_beta self) solver_ gradient hessian).

Definition BatchedLogisticRegression_fit (self : BatchedLogisticRegression)
    (X y : array) : M BatchedLogisticRegression :=
  let! grad := lift (BatchedLogisticRegression_gradient self X y) in
  let! H := lift (BatchedLogisticRegression_hessian self X) in
  let! b := BatchedLogisticRegression_beta self grad H
              BatchedCholeskySolver in
  ret (mk_BatchedLogisticRegression (Some b) (blog_acceleration self)).

(** *** Calls through an instance of any of the classes *)

Inductive model : Type :=
| Linear (m : LinearRegression)
| BatchedLinear (m : BatchedLinearRegression)
| BlockedLinear (m : BlockedLinearRegression)
| Logistic (m : LogisticRegression)
| BatchedLogistic (m : BatchedLogisticRegression).

(** The stored coefficient state of an instance. *)
Definition coefficient_state (m : model) : pyarray :=
  match m with
  | Linear m => lin_beta m
  | BatchedLinear m => bat_beta m
  | BlockedLinear m => blk_beta m
  | Logistic m => log_beta m
  | BatchedLogistic m => blog_beta m
  end.

(** [m.dof(nobs)]: the logistic classes and their base class [LinearModel]
    define no [dof]. *)
Definition call_dof (m : model) (nobs : Z) : result Z :=
  match m with
  | Linear m => LinearRegression_dof m nobs
  | BatchedLinear m => BatchedLinearRegression_dof m nobs
  | BlockedLinear m => BlockedLinearRegression_dof m nobs
  | Logistic _ => Raise (AttributeError "dof")
  | BatchedLogistic _ => Raise (AttributeError "dof")
  end.

(** *** Construction *)

Definition missing_statistics : string :=
  "Must provide XtX and Xty, since beta is not provided.".

Definition qr_in_constructor : string :=
  "QRSolver is not supported in constructor.".

(** Every instance held in [r] has a coefficient state that is an array. *)
Definition holds_state {T : Type} (wrap : T -> model) (r : result T) : Prop :=
  match r with
  | Ok m => exists b, coefficient_state (wrap m) = Some b
  | Raise _ => True
  end.

(** C4 (as amended): each of the three linear constructors, called with
    [beta = None] and with [XtX] or [Xty] missing, raises the [ValueError]
    at once, before any solver is called, and every instance a linear
    constructor returns holds a coefficient state that is not [None]; the
    two logistic constructors only store their [beta] argument. *)
Theorem linear_constructors_require_state
    (beta XtX Xty : pyarray) (algo : solver) (include_bias : bool)
    (nmodels : Z) (acceleration : string) (log : list event) :
  (LinearRegression_init None None Xty algo include_bias log
   = (Raise (ValueError missing_statistics), log) /\
   LinearRegression_init None XtX None algo include_bias log
   = (Raise (ValueError missing_statistics), log)) /\
  (BatchedLinearRegression_init None None Xty algo include_bias log
   = (Raise (ValueError missing_statistics), log) /\
   BatchedLinearRegression_init None XtX None algo include_bias log
   = (Raise (ValueError missing_statistics), log)) /\
  (BlockedLinearRegression_init None None Xty nmodels algo log
   = (Raise (ValueError missing_statistics), log) /\
   BlockedLinearRegression_init None XtX None nmodels algo log
   = (Raise (ValueError missing_statistics), log)) /\
  holds_state Linear
    (fst (LinearRegression_init beta XtX Xty algo include_bias log)) /\
  holds_state BatchedLinear
    (fst (BatchedLinearRegression_init beta XtX Xty algo include_bias log)) /\
  holds_state BlockedLinear
    (fst (BlockedLinearRegression_init beta XtX Xty nmodels algo log)) /\
  LogisticRegression_init beta log = (Ok (mk_LogisticRegression beta), log) /\
  BatchedLogisticRegression_init beta acceleration log
  = (Ok (mk_BatchedLogisticRegression beta acceleration), log).
Proof.
  repeat match goal with |- _ /\ _ => split end; try reflexivity.
  - destruct XtX; reflexivity.
  - destruct XtX; reflexivity.
  - destruct XtX; reflexivity.
  - unfold LinearRegression_init, mbind, solve, ret, raise.
    destruct beta as [b |]; [| destruct XtX as [xtx |], Xty as [xty |]];
      try destruct (isinstance_QRSolver algo);
      try destruct (call_solver algo xtx xty);
      simpl; eauto.
  - unfold BatchedLinearRegression_init, mbind, solve, ret, raise.
    destruct beta as [b |]; [| destruct XtX as [xtx |], Xty as [xty |]];
      try destruct (isinstance_QRSolver algo);
      try destruct (call_solver algo xtx xty);
      simpl; eauto.
  - unfold BlockedLinearRegression_init, mbind, solve, ret, raise, lift.
    destruct beta as [b |]; [| destruct XtX as [xtx |], Xty as [xty |]];
      try destruct (isinstance_QRSolver algo);
      try destruct (shape_first _) as [n | e];
      try destruct (py_mod _ _) as [r | e'];
      try destruct (negb _);
      try destruct (call_solver algo xtx xty);
      simpl; eauto.
Qed.

(** C6: a constructor of a linear model that is given only the statistics
    [XtX] and [Xty] (no [beta]) and a QR solver raises a [ValueError] and
    calls no solver; so does [BatchedLinearRegression.fit] with a QR
    solver.  The [fit] class methods take the rows [X] and [y], never the
    statistics, and the two that accept a QR solver hand it these rows. *)
Theorem qr_rejected_with_statistics
    (xtx xty X y : array) (include_bias : bool) (nmodels : Z)
    (log : list event) :
  LinearRegression_init None (Some xtx) (Some xty) QRSolver include_bias log
  = (Raise (ValueError qr_in_constructor), log) /\
  BatchedLinearRegression_init None (Some xtx) (Some xty) QRSolver
    include_bias log
  = (Raise (ValueError qr_in_constructor), log) /\
  BlockedLinearRegression_init None (Some xtx) (Some xty) nmodels QRSolver log
  = (Raise (ValueError qr_in_constructor), log) /\
  BatchedLinearRegression_fit X y QRSolver include_bias log
  = (Raise (ValueError "QRSolver is not supported."), log) /\
  snd (LinearRegression_fit X y QRSolver include_bias log)
  = log ++ [Solve QRSolver X y] /\
  snd (BlockedLinearRegression_fit X y nmodels QRSolver log)
  = log ++ [Solve QRSolver X y].
Proof.
  repeat split.
  - unfold LinearRegression_fit, mbind, solve. simpl.
    destruct (call_solver QRSolver X y); reflexivity.
  - unfold BlockedLinearRegression_fit, mbind, solve. simpl.
    destruct (call_solver QRSolver X y) as [b | e]; [| reflexivity].
    unfold BlockedLinearRegression_init, mbind, lift, ret, raise. simpl.
    destruct (shape b); [reflexivity |].
    destruct (py_mod _ _); [| reflexivity].
    destruct (negb _); reflexivity.
Qed.

Ltac blocked_init_step :=
  unfold BlockedLinearRegression_init, mbind, lift, ret, raise,
    shape_first, py_mod.

(** C10: when [beta] is given, the three linear constructors ignore [XtX],
    [Xty] and [algo] (a QR solver included): the log of solver calls is
    left as it was and the coefficient state is the given [beta].  The
    blocked constructor does so when the length of [beta] is a multiple of
    [nmodels], and raises a [ValueError] when it is not. *)
Theorem given_beta_is_stored
    (b : array) (XtX Xty : pyarray) (algo : solver) (include_bias : bool)
    (nmodels : Z) (n : nat) (s : list nat) (log : list event) :
  (LinearRegression_init (Some b) XtX Xty algo include_bias log
   = (Ok (mk_LinearRegression (Some b) include_bias), log)) /\
  (BatchedLinearRegression_init (Some b) XtX Xty algo include_bias log
   = (Ok (mk_BatchedLinearRegression (Some b) include_bias), log)) /\
  (shape b = n :: s -> nmodels <> 0 -> Z.of_nat n mod nmodels = 0 ->
   BlockedLinearRegression_init (Some b) XtX Xty nmodels algo log
   = (Ok (mk_BlockedLinearRegression (Some b) nmodels), log)) /\
  (shape b = n :: s -> nmodels <> 0 -> Z.of_nat n mod nmodels <> 0 ->
   exists msg,
     BlockedLinearRegression_init (Some b) XtX Xty nmodels algo log
     = (Raise (ValueError msg), log)).
Proof.
  split; [reflexivity | split; [reflexivity | split]].
  - intros Hshape Hn Hdiv. apply Z.eqb_neq in Hn.
    blocked_init_step. rewrite Hshape, Hn, Hdiv. reflexivity.
  - intros Hshape Hn Hdiv. apply Z.eqb_neq in Hn.
    blocked_init_step. rewrite Hshape, Hn.
    apply Z.eqb_neq in Hdiv. rewrite Hdiv. simpl. eexists. reflexivity.
Qed.

(** *** Degrees of freedom *)

(** C5 (as amended): [dof(nobs)] of a plain or batched linear model is
    [nobs - p], and [nobs - p - 1] when a bias term is modelled, where [p]
    is read from the shape of the stored coefficients (its first axis for
    the plain model, its last axis for the batched one); a blocked model
    has no bias option and returns [nobs - len(beta) // nmodels]; the
    logistic models have no [dof]. *)
Theorem dof_spec (b : array) (p : nat) (s : list nat) (nmodels nobs : Z)
    (beta : pyarray) (acceleration : string) :
  (shape b = p :: s ->
     call_dof (Linear (mk_LinearRegression (Some b) false)) nobs
     = Ok (nobs - Z.of_nat p) /\
     call_dof (Linear (mk_LinearRegression (Some b) true)) nobs
     = Ok (nobs - Z.of_nat p - 1)) /\
  (shape b = s ++ [p] ->
     call_dof (BatchedLinear (mk_BatchedLinearRegression (Some b) false)) nobs
     = Ok (nobs - Z.of_nat p) /\
     call_dof (BatchedLinear (mk_BatchedLinearRegression (Some b) true)) nobs
     = Ok (nobs - Z.of_nat p - 1)) /\
  (shape b = p :: s -> nmodels <> 0 ->
     call_dof (BlockedLinear (mk_BlockedLinearRegression (Some b) nmodels))
       nobs
     = Ok (nobs - Z.of_nat p / nmodels)) /\
  call_dof (Logistic (mk_LogisticRegression beta)) nobs
  = Raise (AttributeError "dof") /\
  call_dof (BatchedLogistic (mk_BatchedLogisticRegression beta acceleration))
    nobs
  = Raise (AttributeError "dof").
Proof.
  split; [| split; [| split; [| split; reflexivity]]].
  - intros H. unfold call_dof, LinearRegression_dof, shape_first. simpl.
    rewrite H. simpl. split; f_equal; lia.
  - intros H. unfold call_dof, BatchedLinearRegression_dof,
      BatchedLinearRegression_coef, shape_last. simpl.
    rewrite H, rev_app_distr. simpl. split; f_equal; lia.
  - intros H Hn. apply Z.eqb_neq in Hn.
    unfold call_dof, BlockedLinearRegression_dof,
      BlockedLinearRegression_coef_dim, shape_first, py_floordiv. simpl.
    rewrite H. simpl. rewrite Hn. reflexivity.
Qed.

(** *** Fitting the logistic models *)

Lemma LogisticRegression_fit_step
    (self : LogisticRegression) (X y b p res grad H step b' : array)
    (log : list event) :
  log_beta self = Some b ->
  logistic_predict X b = Ok p ->
  sub (expand_dims y) (expand_dims p) = Ok res ->
  mvmul (transpose X) res = Ok grad ->
  logistic_hessian X (expand_dims p) = Ok H ->
  call_solver CholeskySolver H grad = Ok step ->
  add (expand_dims b) step = Ok b' ->
  LogisticRegression_fit self X y log
  = (Ok (mk_LogisticRegression (Some b')),
     log ++ [Solve CholeskySolver H grad]).
Proof.
  intros Hb Hp Hres Hgrad HH Hstep Hadd.
  unfold LogisticRegression_fit, LogisticRegression_beta,
    LogisticRegression_gradient, LogisticRegression_hessian,
    LogisticRegression_residual, LogisticRegression_predict,
    mbind, lift, solve, ret.
  rewrite Hb. simpl. rewrite Hp. simpl. rewrite Hres. simpl.
  rewrite Hgrad, HH, Hstep, Hadd. reflexivity.
Qed.

Lemma BatchedLogisticRegression_fit_step
    (self : BatchedLogisticRegression) (X y b yhat res grad H step b' : array)
    (log : list event) :
  blog_beta self = Some b ->
  BatchedLogisticRegression_predict self X = Ok yhat ->
  batched_logistic_residual y yhat = Ok res ->
  batched_logistic_gradient X res = Ok grad ->
  batched_logistic_hessian X yhat = Ok H ->
  call_solver BatchedCholeskySolver H grad = Ok step ->
  add b step = Ok b' ->
  BatchedLogisticRegression_fit self X y log
  = (Ok (mk_BatchedLogisticRegression (Some b') (blog_acceleration self)),
     log ++ [Solve BatchedCholeskySolver H grad]).
Proof.
  intros Hb Hp Hres Hgrad HH Hstep Hadd.
  unfold BatchedLogisticRegression_fit, BatchedLogisticRegression_beta,
    BatchedLogisticRegression_gradient, BatchedLogisticRegression_hessian,
    BatchedLogisticRegression_residual, beta_plus_step,
    mtry, mbind, lift, solve, ret.
  rewrite Hp. simpl. rewrite Hres. simpl.
  rewrite Hgrad, HH, Hstep, Hb. simpl. rewrite Hadd. reflexivity.
Qed.

(** [predict] of the batched class with [acceleration = "single"]: the
    logistic function of [batched_mvmul(X, beta)], with a trailing axis. *)
Lemma BatchedLogisticRegression_predict_single
    (self : BatchedLogisticRegression) (X b z : array) :
  blog_acceleration self = "single"%string ->
  blog_beta self = Some b ->
  batched_mvmul X b = Ok z ->
  BatchedLogisticRegression_predict self X = Ok (expand_dims (sigmoid z)).
Proof.
  intros Hacc Hb Hz. unfold BatchedLogisticRegression_predict.
  rewrite Hacc, Hb. cbn. rewrite Hz. reflexivity.
Qed.

(** C3 (as amended): one call of [fit] of the plain logistic model, and of
    the batched logistic model made with [acceleration = "single"], is one
    Newton step.  From the current coefficients [b] it takes the
    prediction, the gradient [X.T (y - prediction)] and the Hessian of that
    prediction, calls the solver once on (Hessian, gradient), and leaves
    the model with [b + step] ([b] with a trailing axis in the plain
    class); the log grows by that single solver call.  A batched model made
    with an acceleration name that is neither ["single"] nor ["pmap"]
    raises [ValueError] in [fit] and takes no step. *)
Theorem fit_is_one_newton_step
    (self : LogisticRegression) (X y b p res grad H step b' : array)
    (bself : BatchedLogisticRegression)
    (BX By bb bz bres bgrad BH bstep bb' : array)
    (log : list event) :
  (log_beta self = Some b ->
   logistic_predict X b = Ok p ->
   sub (expand_dims y) (expand_dims p) = Ok res ->
   mvmul (transpose X) res = Ok grad ->
   logistic_hessian X (expand_dims p) = Ok H ->
   call_solver CholeskySolver H grad = Ok step ->
   add (expand_dims b) step = Ok b' ->
   LogisticRegression_fit self X y log
   = (Ok (mk_LogisticRegression (Some b')),
      log ++ [Solve CholeskySolver H grad])) /\
  (blog_acceleration bself = "single"%string ->
   blog_beta bself = Some bb ->
   batched_mvmul BX bb = Ok bz ->
   batched_logistic_residual By (expand_dims (sigmoid bz)) = Ok bres ->
   batched_logistic_gradient BX bres = Ok bgrad ->
   batched_logistic_hessian BX (expand_dims (sigmoid bz)) = Ok BH ->
   call_solver BatchedCholeskySolver BH bgrad = Ok bstep ->
   add bb bstep = Ok bb' ->
   BatchedLogisticRegression_fit bself BX By log
   = (Ok (mk_BatchedLogisticRegression (Some bb') "single"),
      log ++ [Solve BatchedCholeskySolver BH bgrad])) /\
  (String.eqb (blog_acceleration bself) "single" = false ->
   String.eqb (blog_acceleration bself) "pmap" = false ->
   BatchedLogisticRegression_fit bself BX By log
   = (Raise (ValueError (blog_acceleration bself
                         ++ " acceleration is not supported.")), log)).
Proof.
  split; [| split].
  - apply LogisticRegression_fit_step.
  - intros Hacc Hb Hz Hres Hgrad HH Hstep Hadd.
    rewrite <- Hacc.
    apply (BatchedLogisticRegression_fit_step bself BX By bb
             (expand_dims (sigmoid bz)) bres bgrad BH bstep bb' log);
      try assumption.
    now apply (BatchedLogisticRegression_predict_single bself BX bb bz).
  - intros Hs Hp.
    unfold BatchedLogisticRegression_fit, BatchedLogisticRegression_gradient,
      BatchedLogisticRegression_residual, BatchedLogisticRegression_predict,
      mbind, lift.
    rewrite Hs, Hp. reflexivity.
Qed.

(** The value of one attempt [self.__beta + solver(hessian, gradient)]. *)
Definition attempt (beta : pyarray) (solver_ : solver)
    (gradient hessian : array) : result array :=
  step <- call_solver solver_ hessian gradient ;;
  b <- as_array beta ;;
  add b step.

Lemma beta_plus_step_run (beta : pyarray) (solver_ : solver)
    (gradient hessian : array) (log : list event) :
  beta_plus_step beta solver_ gradient hessian log
  = (attempt beta solver_ gradient hessian,
     log ++ [Solve solver_ hessian gradient]).
Proof.
  unfold beta_plus_step, attempt, mbind, lift, solve.
  destruct (call_solver solver_ hessian gradient) as [step | e];
    [| reflexivity].
  simpl. destruct (as_array beta); reflexivity.
Qed.

(** C7: the coefficient update of the batched logistic model first calls
    the batched Cholesky solver; when that attempt succeeds its value is
    returned after this one call; when it raises, the batched inverse
    solver is called on the same Hessian and gradient and the outcome of
    that second attempt, value or exception, is the outcome of the update.
    In [fit] only the update is protected: an exception of the gradient or
    of the Hessian is raised to the caller before any solver is called. *)
Theorem batched_beta_falls_back
    (self : BatchedLogisticRegression) (X y gradient hessian : array)
    (log : list event) :
  BatchedLogisticRegression_beta self gradient hessian BatchedCholeskySolver
    log
  = match attempt (blog_beta self) BatchedCholeskySolver gradient hessian with
    | Ok b' => (Ok b', log ++ [Solve BatchedCholeskySolver hessian gradient])
    | Raise _ =>
        (attempt (blog_beta self) BatchedInverseSolver gradient hessian,
         log ++ [Solve BatchedCholeskySolver hessian gradient;
                 Solve BatchedInverseSolver hessian gradient])
    end /\
  BatchedLogisticRegression_fit self X y log
  = match BatchedLogisticRegression_gradient self X y with
    | Raise e => (Raise e, log)
    | Ok grad =>
        match BatchedLogisticRegression_hessian self X with
        | Raise e => (Raise e, log)
        | Ok H =>
            match BatchedLogisticRegression_beta self grad H
                    BatchedCholeskySolver log with
            | (Ok b', log') =>
                (Ok (mk_BatchedLogisticRegression (Some b')
                       (blog_acceleration self)), log')
            | (Raise e, log') => (Raise e, log')
            end
        end
    end.
Proof.
  split.
  - unfold BatchedLogisticRegression_beta, mtry.
    rewrite !beta_plus_step_run.
    destruct (attempt (blog_beta self) BatchedCholeskySolver gradient hessian);
      [reflexivity |].
    rewrite <- app_assoc. reflexivity.
  - unfold BatchedLogisticRegression_fit, mbind, lift, ret.
    destruct (BatchedLogisticRegression_gradient self X y) as [grad | e];
      [| reflexivity].
    destruct (BatchedLogisticRegression_hessian self X) as [H | e];
      [| reflexivity].
    destruct (BatchedLogisticRegression_beta self grad H
                BatchedCholeskySolver log) as [[b' | e] log'];
      reflexivity.
Qed.

(** *** Prediction with [acceleration = "pmap"] *)

(** C2: [predict] with [acceleration = "pmap"] asks [gwasprs.utils] for
    [jax_cpu_cores], a name that module does not define, so the call raises
    [AttributeError] for every model and every input, whereas with
    [acceleration = "single"] it returns the product computed by
    [batched_mvmul]. *)
Theorem predict_pmap_raises (self : BatchedLinearRegression) (X : array) :
  BatchedLinearRegression_predict self X "pmap"
  = Raise (AttributeError "jax_cpu_cores") /\
  BatchedLinearRegression_predict self X "single"
  = (coef <- as_array (bat_beta self) ;; batched_mvmul X coef).
Proof. split; reflexivity. Qed.

(** *** Fitting from rows and constructing from statistics *)

(** [LinearRegression.fit] and [BatchedLinearRegression.fit] with a solver
    that is not a QR solver do what the constructor does when it is given
    the statistics of the rows: the same solver call and the same model or
    exception. *)
Theorem fit_is_constructor_from_statistics
    (X y xtx xty bxtx bxty : array) (algo : solver) (include_bias : bool)
    (log : list event) :
  isinstance_QRSolver algo = false ->
  (unnorm_autocovariance X = Ok xtx ->
   unnorm_covariance X y = Ok xty ->
   LinearRegression_fit X y algo include_bias log
   = LinearRegression_init None (Some xtx) (Some xty) algo include_bias log) /\
  (batched_unnorm_autocovariance X = Ok bxtx ->
   batched_unnorm_covariance X y = Ok bxty ->
   BatchedLinearRegression_fit X y algo include_bias log
   = BatchedLinearRegression_init None (Some bxtx) (Some bxty) algo
       include_bias log).
Proof.
  intros Hqr. split; intros H1 H2.
  - unfold LinearRegression_fit, LinearRegression_init, mbind, lift, solve,
      ret.
    rewrite Hqr, H1, H2.
    destruct (call_solver algo xtx xty); reflexivity.
  - unfold BatchedLinearRegression_fit, BatchedLinearRegression_init, mbind,
      lift, solve, ret.
    rewrite Hqr, H1, H2.
    destruct (call_solver algo bxtx bxty); reflexivity.
Qed.

(** *** How often a solver is called *)

(** [log'] is [log] followed by at most [n] solver calls. *)
Definition extends_by (n : nat) (log log' : list event) : Prop :=
  exists evs, log' = log ++ evs /\ (length evs <= n)%nat.

Lemma extends_by_0 (n : nat) (log : list event) : extends_by n log log.
Proof. exists []. split; [now rewrite app_nil_r | simpl; lia]. Qed.

Lemma extends_by_1 (n : nat) (log : list event) (ev : event) :
  extends_by (S n) log (log ++ [ev]).
Proof. exists [ev]. split; [reflexivity | simpl; lia]. Qed.

Lemma extends_by_2 (n : nat) (log : list event) (ev1 ev2 : event) :
  extends_by (S (S n)) log ((log ++ [ev1]) ++ [ev2]).
Proof.
  exists [ev1; ev2]. split; [now rewrite <- app_assoc | simpl; lia].
Qed.

Ltac split_cases :=
  repeat match goal with
         | |- context [match ?x with _ => _ end] =>
             lazymatch x with
             | context [match _ with _ => _ end] => fail
             | _ => destruct x
             end
         end;
  cbn [snd fst].

Ltac count_calls :=
  split_cases;
  first [apply extends_by_0 | apply extends_by_1 | apply extends_by_2].

(** Whatever the arguments, a constructor or a [fit] of the linear models
    and the [fit] of the plain logistic model call a solver at most once,
    and the [fit] of the batched logistic model at most twice; earlier
    entries of the log are kept. *)
Theorem solver_called_at_most_once
    (beta XtX Xty : pyarray) (X y : array) (algo : solver)
    (include_bias : bool) (nmodels : Z) (log : list event)
    (lself : LogisticRegression) (bself : BatchedLogisticRegression) :
  extends_by 1 log
    (snd (LinearRegression_init beta XtX Xty algo include_bias log)) /\
  extends_by 1 log
    (snd (BatchedLinearRegression_init beta XtX Xty algo include_bias log)) /\
  extends_by 1 log
    (snd (BlockedLinearRegression_init beta XtX Xty nmodels algo log)) /\
  extends_by 1 log (snd (LinearRegression_fit X y algo include_bias log)) /\
  extends_by 1 log
    (snd (BatchedLinearRegression_fit X y algo include_bias log)) /\
  extends_by 1 log (snd (BlockedLinearRegression_fit X y nmodels algo log)) /\
  extends_by 1 log (snd (LogisticRegression_fit lself X y log)) /\
  extends_by 2 log (snd (BatchedLogisticRegression_fit bself X y log)).
Proof.
  repeat match goal with |- _ /\ _ => split end.
  - unfold LinearRegression_init, mbind, solve, ret, raise. count_calls.
  - unfold BatchedLinearRegression_init, mbind, solve, ret, raise.
    count_calls.
  - unfold BlockedLinearRegression_init, mbind, solve, ret, raise, lift.
    count_calls.
  - unfold LinearRegression_fit, LinearRegression_init, mbind, solve, ret,
      raise, lift. count_calls.
  - unfold BatchedLinearRegression_fit, BatchedLinearRegression_init, mbind,
      solve, ret, raise, lift. count_calls.
  - unfold BlockedLinearRegression_fit, BlockedLinearRegression_init, mbind,
      solve, ret, raise, lift. count_calls.
  - unfold LogisticRegression_fit, LogisticRegression_beta, mbind, solve, ret,
      raise, lift. count_calls.
  - unfold BatchedLogisticRegression_fit, BatchedLogisticRegression_beta,
      beta_plus_step, mtry, mbind, solve, ret, raise, lift. count_calls.
Qed.

(** *** The dimension check of the blocked model *)

(** The constructor of the blocked model checks the dimension of [XtX]
    against [nmodels] before it calls the solver, so a dimension that is not
    a multiple of [nmodels] raises [ValueError] and [nmodels = 0] raises
    [ZeroDivisionError] with no solver call.  [fit] on a sparse design
    solves first and lets the constructor check the solution, so the same
    errors come after the solver call; on a design whose product [X.T @ X]
    has no [toarray] (a dense array) that call raises and [fit] raises its
    exception before any solver call. *)
Theorem blocked_dimension_check_order
    (X y xtx xty kxtx dxtx kxty b : array) (algo : solver) (nmodels : Z)
    (n m : nat) (s t : list nat) (e : exn) (log : list event) :
  isinstance_QRSolver algo = false ->
  shape xtx = n :: s ->
  matmul (transpose X) X = Ok kxtx ->
  (nmodels <> 0 -> Z.of_nat n mod nmodels <> 0 ->
   exists msg,
     BlockedLinearRegression_init None (Some xtx) (Some xty) nmodels algo log
     = (Raise (ValueError msg), log)) /\
  BlockedLinearRegression_init None (Some xtx) (Some xty) 0 algo log
  = (Raise ZeroDivisionError, log) /\
  (toarray kxtx = Ok dxtx ->
   matmul (transpose X) y = Ok kxty ->
   call_solver algo dxtx kxty = Ok b ->
   shape b = m :: t ->
   (nmodels <> 0 -> Z.of_nat m mod nmodels <> 0 ->
    exists msg,
      BlockedLinearRegression_fit X y nmodels algo log
      = (Raise (ValueError msg), log ++ [Solve algo dxtx kxty])) /\
   BlockedLinearRegression_fit X y 0 algo log
   = (Raise ZeroDivisionError, log ++ [Solve algo dxtx kxty])) /\
  (toarray kxtx = Raise e ->
   BlockedLinearRegression_fit X y nmodels algo log = (Raise e, log)).
Proof.
  intros Hqr Hxtx Hk1.
  repeat match goal with |- _ /\ _ => split end.
  - intros Hn Hdiv. apply Z.eqb_neq in Hn, Hdiv.
    blocked_init_step. rewrite Hqr, Hxtx, Hn, Hdiv. simpl. eexists.
    reflexivity.
  - blocked_init_step. rewrite Hqr, Hxtx. reflexivity.
  - intros Hd Hk2 Hsolve Hb. split.
    + intros Hn Hdiv. apply Z.eqb_neq in Hn, Hdiv.
      unfold BlockedLinearRegression_fit. blocked_init_step. unfold solve.
      rewrite Hqr, Hk1, Hd, Hk2, Hsolve, Hb, Hn, Hdiv. simpl. eexists.
      reflexivity.
    + unfold BlockedLinearRegression_fit. blocked_init_step. unfold solve.
      rewrite Hqr, Hk1, Hd, Hk2, Hsolve, Hb. reflexivity.
  - intros Hd. unfold BlockedLinearRegression_fit, mbind, lift.
    rewrite Hqr, Hk1, Hd. reflexivity.
Qed.

Lemma blocked_init_given_beta (b : array) (XtX Xty : pyarray) (nmodels : Z)
    (algo : solver) (log log' : list event) (self : BlockedLinearRegression) :
  BlockedLinearRegression_init (Some b) XtX Xty nmodels algo log
  = (Ok self, log') ->
  exists n s,
    self = mk_BlockedLinearRegression (Some b) nmodels /\ log' = log /\
    shape b = n :: s /\ nmodels <> 0 /\ Z.of_nat n mod nmodels = 0.
Proof.
  blocked_init_step. destruct (shape b) as [|n s]; [discriminate |].
  destruct (Z.eqb_spec nmodels 0) as [E | N]; [discriminate |].
  destruct (Z.eqb_spec (Z.of_nat n mod nmodels) 0) as [E | N'];
    cbn [negb]; [| discriminate].
  intros H. inversion H; subst. exists n, s. repeat split; assumption.
Qed.

(** A blocked model that the constructor returns for a given [beta], and
    every blocked model that [fit] returns, holds coefficients whose length
    is a multiple of its non-zero [nmodels]: [coef_dim * nmodels] is that
    length and [dof(nobs)] is [nobs - coef_dim]. *)
Theorem blocked_model_invariant
    (b X y : array) (XtX Xty : pyarray) (nmodels : Z) (algo : solver)
    (log log' : list event) (self : BlockedLinearRegression) :
  BlockedLinearRegression_init (Some b) XtX Xty nmodels algo log
  = (Ok self, log') \/
  BlockedLinearRegression_fit X y nmodels algo log = (Ok self, log') ->
  exists c n s,
    blk_beta self = Some c /\ blk_nmodels self = nmodels /\
    shape c = n :: s /\ nmodels <> 0 /\
    BlockedLinearRegression_coef_dim self = Ok (Z.of_nat n / nmodels) /\
    Z.of_nat n / nmodels * nmodels = Z.of_nat n /\
    forall nobs,
      BlockedLinearRegression_dof self nobs
      = Ok (nobs - Z.of_nat n / nmodels).
Proof.
  assert (Hinit : forall c l l',
    BlockedLinearRegression_init (Some c) None None nmodels CholeskySolver l
    = (Ok self, l') \/
    BlockedLinearRegression_init (Some c) XtX Xty nmodels algo l
    = (Ok self, l') ->
    exists c n s,
      blk_beta self = Some c /\ blk_nmodels self = nmodels /\
      shape c = n :: s /\ nmodels <> 0 /\
      BlockedLinearRegression_coef_dim self = Ok (Z.of_nat n / nmodels) /\
      Z.of_nat n / nmodels * nmodels = Z.of_nat n /\
      forall nobs,
        BlockedLinearRegression_dof self nobs
        = Ok (nobs - Z.of_nat n / nmodels)).
  { intros c l l' [H | H]; apply blocked_init_given_beta in H;
      destruct H as (n & s & -> & _ & Hs & Hn & Hdiv);
      exists c, n, s;
      (assert (Hdim : BlockedLinearRegression_coef_dim
                        (mk_BlockedLinearRegression (Some c) nmodels)
                      = Ok (Z.of_nat n / nmodels));
       [unfold BlockedLinearRegression_coef_dim, shape_first, py_floordiv;
        cbn [blk_beta blk_nmodels]; rewrite Hs; cbn [bind];
        apply Z.eqb_neq in Hn; now rewrite Hn |]);
      repeat split; try assumption.
    - rewrite Z.mul_comm. symmetry. now apply Z_div_exact_full_2.
    - intros nobs. unfold BlockedLinearRegression_dof. now rewrite Hdim.
    - rewrite Z.mul_comm. symmetry. now apply Z_div_exact_full_2.
    - intros nobs. unfold BlockedLinearRegression_dof. now rewrite Hdim. }
  intros [H | H].
  - apply (Hinit b log log'). now right.
  - unfold BlockedLinearRegression_fit, mbind in H.
    destruct (isinstance_QRSolver algo).
    + unfold solve in H.
      destruct (call_solver algo X y) as [c | e]; [| discriminate].
      eapply Hinit. left. exact H.
    + unfold lift, solve in H.
      destruct (matmul (transpose X) X) as [kxtx | e]; [| discriminate].
      destruct (toarray kxtx) as [dxtx | e]; [| discriminate].
      destruct (matmul (transpose X) y) as [kxty | e]; [| discriminate].
      destruct (call_solver algo dxtx kxty) as [c | e];
        [| discriminate].
      eapply Hinit. left. exact H.
Qed.

(** *** A failing solver in the plain logistic model *)

(** The update of the plain logistic model has no second solver: when the
    Cholesky solver raises on the Hessian and gradient of the current
    coefficients, [fit] raises the same exception after that one call. *)
Theorem plain_logistic_has_no_fallback
    (self : LogisticRegression) (X y b p res grad H : array) (e : exn)
    (log : list event) :
  log_beta self = Some b ->
  logistic_predict X b = Ok p ->
  sub (expand_dims y) (expand_dims p) = Ok res ->
  mvmul (transpose X) res = Ok grad ->
  logistic_hessian X (expand_dims p) = Ok H ->
  call_solver CholeskySolver H grad = Raise e ->
  LogisticRegression_fit self X y log
  = (Raise e, log ++ [Solve CholeskySolver H grad]).
Proof.
  intros Hb Hp Hres Hgrad HH Hstep.
  unfold LogisticRegression_fit, LogisticRegression_beta,
    LogisticRegression_gradient, LogisticRegression_hessian,
    LogisticRegression_residual, LogisticRegression_predict,
    mbind, lift, solve, ret.
  rewrite Hb. simpl. rewrite Hp. simpl. rewrite Hres. simpl.
  rewrite Hgrad, HH, Hstep. reflexivity.
Qed.

(** *** The acceleration name *)

Variable batched_vdot : array -> array -> result array.

Definition BatchedLinearRegression_residual (self : BatchedLinearRegression)
    (X y : array) (acceleration : string) : result array :=
  yhat <- BatchedLinearRegression_predict self X acceleration ;;
  sub y yhat.

Definition BatchedLinearRegression_sse (self : BatchedLinearRegression)
    (X y : array) (acceleration : string) : result array :=
  res <- BatchedLinearRegression_residual self X y acceleration ;;
  batched_vdot res res.

(** What a prediction raises for an acceleration that is not ["single"]. *)
Definition acceleration_error (acceleration : string) : exn :=
  if String.eqb acceleration "pmap"
  then AttributeError "jax_cpu_cores"
  else ValueError (acceleration ++ " acceleration is not supported.").

(** The batched logistic constructor stores any acceleration name without a
    check.  With a name other than ["single"] no prediction is ever made:
    [predict] raises ([ValueError] for an unknown name), and so do
    [residual], [gradient], [hessian] and [fit], the last one without
    calling a solver; [predict], [residual] and [sse] of the batched linear
    model raise in the same way. *)
Theorem acceleration_checked_on_use
    (beta : pyarray) (acceleration : string) (X y : array)
    (lin : BatchedLinearRegression) (log : list event) :
  String.eqb acceleration "single" = false ->
  BatchedLogisticRegression_init beta acceleration log
  = (Ok (mk_BatchedLogisticRegression beta acceleration), log) /\
  BatchedLogisticRegression_predict
    (mk_BatchedLogisticRegression beta acceleration) X
  = Raise (acceleration_error acceleration) /\
  BatchedLogisticRegression_residual
    (mk_BatchedLogisticRegression beta acceleration) X y
  = Raise (acceleration_error acceleration) /\
  BatchedLogisticRegression_gradient
    (mk_BatchedLogisticRegression beta acceleration) X y
  = Raise (acceleration_error acceleration) /\
  BatchedLogisticRegression_hessian
    (mk_BatchedLogisticRegression beta acceleration) X
  = Raise (acceleration_error acceleration) /\
  BatchedLogisticRegression_fit
    (mk_BatchedLogisticRegression beta acceleration) X y log
  = (Raise (acceleration_error acceleration), log) /\
  BatchedLinearRegression_predict lin X acceleration
  = Raise (acceleration_error acceleration) /\
  BatchedLinearRegression_residual lin X y acceleration
  = Raise (acceleration_error acceleration) /\
  BatchedLinearRegression_sse lin X y acceleration
  = Raise (acceleration_error acceleration).
Proof.
  intros Hs.
  assert (Hlog : BatchedLogisticRegression_predict
                   (mk_BatchedLogisticRegression beta acceleration) X
                 = Raise (acceleration_error acceleration)).
  { unfold BatchedLogisticRegression_predict, acceleration_error.
    cbn [blog_acceleration]. rewrite Hs.
    destruct (String.eqb acceleration "pmap"); reflexivity. }
  assert (Hlin : BatchedLinearRegression_predict lin X acceleration
                 = Raise (acceleration_error acceleration)).
  { unfold BatchedLinearRegression_predict, acceleration_error. rewrite Hs.
    destruct (String.eqb acceleration "pmap"); reflexivity. }
  unfold BatchedLogisticRegression_fit, BatchedLogisticRegression_gradient,
    BatchedLogisticRegression_hessian, BatchedLogisticRegression_residual,
    BatchedLinearRegression_sse, BatchedLinearRegression_residual,
    mbind, lift.
  rewrite Hlog, Hlin. repeat split.
Qed.

(** *** The update of the batched logistic model with a given solver *)

(** Whatever solver [beta] is given, the second attempt is made with the
    batched inverse solver on the same Hessian and gradient; when the given
    solver is that inverse solver and its attempt raises, the same call is
    made once more and its exception is the one raised. *)
Theorem batched_beta_retries_with_inverse
    (self : BatchedLogisticRegression) (gradient hessian : array)
    (solver_ : solver) (e : exn) (log : list event) :
  BatchedLogisticRegression_beta self gradient hessian solver_ log
  = match attempt (blog_beta self) solver_ gradient hessian with
    | Ok b' => (Ok b', log ++ [Solve solver_ hessian gradient])
    | Raise _ =>
        (attempt (blog_beta self) BatchedInverseSolver gradient hessian,
         log ++ [Solve solver_ hessian gradient;
                 Solve BatchedInverseSolver hessian gradient])
    end /\
  (attempt (blog_beta self) BatchedInverseSolver gradient hessian = Raise e ->
   BatchedLogisticRegression_beta self gradient hessian BatchedInverseSolver
     log
   = (Raise e, log ++ [Solve BatchedInverseSolver hessian gradient;
                       Solve BatchedInverseSolver hessian gradient])).
Proof.
  assert (H : forall s,
    BatchedLogisticRegression_beta self gradient hessian s log
    = match attempt (blog_beta self) s gradient hessian with
      | Ok b' => (Ok b', log ++ [Solve s hessian gradient])
      | Raise _ =>
          (attempt (blog_beta self) BatchedInverseSolver gradient hessian,
           log ++ [Solve s hessian gradient;
                   Solve BatchedInverseSolver hessian gradient])
      end).
  { intros s. unfold BatchedLogisticRegression_beta, mtry.
    rewrite !beta_plus_step_run.
    destruct (attempt (blog_beta self) s gradient hessian); [reflexivity |].
    rewrite <- app_assoc. reflexivity. }
  split; [apply H |].
  intros He. rewrite H, He. reflexivity.
Qed.

End Models.

Arguments mk_LinearRegression {array} lin_beta lin_include_bias.
Arguments mk_BatchedLinearRegression {array} bat_beta bat_include_bias.
Arguments mk_BlockedLinearRegression {array} blk_beta blk_nmodels.
Arguments mk_LogisticRegression {array} log_beta.
Arguments mk_BatchedLogisticRegression {array} blog_beta blog_acceleration.
Arguments Linear {array} m.
Arguments BatchedLinear {array} m.
Arguments BlockedLinear {array} m.
Arguments Logistic {array} m.
Arguments BatchedLogistic {array} m.
Arguments Solve {array} algo A b.

(** *** Two small instances

    [Shapes]: an array is known by its shape only.  [Scalars]: every array
    is a single integer and the kernels are integer arithmetic. *)

Module Shapes.
Definition array : Type := list nat.
Definition shape (a : array) : list nat := a.
Definition call_solver (algo : solver) (A b : array) : result array :=
  Raise LinAlgError.
End Shapes.

Module Scalars.
Definition array : Type := Z.
Definition shape (a : array) : list nat := [].
Definition call_solver (algo : solver) (A b : array) : result array :=
  if Z.eqb A 0 then Raise LinAlgError else Ok (b / A).
Definition times (a b : array) : result array := Ok (a * b).
Definition plus (a b : array) : result array := Ok (a + b).
Definition minus (a b : array) : result array := Ok (a - b).
Definition same (a : array) : array := a.
Definition slice (k : nat) (a : array) : array := a.
Definition reshape (a : array) (dims : list Z) : result array := Ok a.
Definition pmap (f : array -> array -> result array) := f.
End Scalars.

Lemma given_beta_is_stored_witness :
  BlockedLinearRegression_init Shapes.array Shapes.shape Shapes.call_solver
    (Some [6%nat]) None None 3 QRSolver []
  = (Ok (mk_BlockedLinearRegression (Some [6%nat]) 3), []) /\
  exists msg,
    BlockedLinearRegression_init Shapes.array Shapes.shape Shapes.call_solver
      (Some [6%nat]) None None 4 QRSolver []
    = (Raise (ValueError msg), []).
Proof.
  split.
  - apply (given_beta_is_stored Shapes.array Shapes.shape Shapes.call_solver
             [6%nat] None None QRSolver false 3 6 [] []);
      [reflexivity | discriminate | reflexivity].
  - apply (given_beta_is_stored Shapes.array Shapes.shape Shapes.call_solver
             [6%nat] None None QRSolver false 4 6 [] []);
      [reflexivity | discriminate | discriminate].
Defined.

Lemma dof_spec_witness :
  call_dof Shapes.array Shapes.shape
    (Linear (mk_LinearRegression (Some [6%nat]) true)) 10 = Ok 3 /\
  call_dof Shapes.array Shapes.shape
    (BatchedLinear (mk_BatchedLinearRegression (Some [6%nat]) false)) 10
  = Ok 4 /\
  call_dof Shapes.array Shapes.shape
    (BlockedLinear (mk_BlockedLinearRegression (Some [6%nat]) 3)) 10 = Ok 8.
Proof.
  destruct (dof_spec Shapes.array Shapes.shape [6%nat] 6 [] 3 10 None "single")
    as (H1 & H2 & H3 & _).
  split; [| split].
  - apply H1. reflexivity.
  - apply H2. reflexivity.
  - apply H3; [reflexivity | discriminate].
Defined.

(** The logistic constructor given [beta = None] returns an instance whose
    coefficient state is [None]. *)
Lemma logistic_constructor_accepts_None :
  LogisticRegression_init Scalars.array None []
  = (Ok (mk_LogisticRegression None), []) /\
  coefficient_state Scalars.array (Logistic (mk_LogisticRegression None))
  = None.
Proof. split; reflexivity. Qed.

(** A logistic model with two coefficients and ten observations: [dof] is
    not [10 - 2] but an [AttributeError]. *)
Lemma dof_undefined_for_logistic :
  call_dof Shapes.array Shapes.shape
    (Logistic (mk_LogisticRegression (Some [2%nat]))) 10
  = Raise (AttributeError "dof") /\
  call_dof Shapes.array Shapes.shape
    (Logistic (mk_LogisticRegression (Some [2%nat]))) 10
  <> Ok (10 - 2).
Proof. split; [reflexivity | discriminate]. Qed.

Lemma fit_is_one_newton_step_witness :
  LogisticRegression_fit Scalars.array Scalars.call_solver Scalars.times
    Scalars.times Scalars.times Scalars.same Scalars.same Scalars.plus
    Scalars.minus (mk_LogisticRegression (Some 1)) 2 5 []
  = (Ok (mk_LogisticRegression (Some 2)), [Solve CholeskySolver 4 6]) /\
  BatchedLogisticRegression_fit Scalars.array Scalars.shape
    Scalars.call_solver Scalars.times Scalars.times Scalars.minus
    Scalars.times Scalars.times Scalars.same Scalars.plus Scalars.same
    Scalars.slice Scalars.slice Scalars.reshape Scalars.plus Scalars.pmap 1
    (mk_BatchedLogisticRegression (Some 1) "single") 2 5 []
  = (Ok (mk_BatchedLogisticRegression (Some 2) "single"),
     [Solve BatchedCholeskySolver 4 6]) /\
  BatchedLogisticRegression_fit Scalars.array Scalars.shape
    Scalars.call_solver Scalars.times Scalars.times Scalars.minus
    Scalars.times Scalars.times Scalars.same Scalars.plus Scalars.same
    Scalars.slice Scalars.slice Scalars.reshape Scalars.plus Scalars.pmap 1
    (mk_BatchedLogisticRegression (Some 1) "gpu") 2 5 []
  = (Raise (ValueError "gpu acceleration is not supported."), []).
Proof.
  destruct (fit_is_one_newton_step Scalars.array Scalars.shape
              Scalars.call_solver Scalars.times Scalars.times Scalars.times
              Scalars.times Scalars.times Scalars.minus Scalars.times
              Scalars.times Scalars.same Scalars.same Scalars.plus
              Scalars.minus Scalars.same Scalars.slice Scalars.slice
              Scalars.reshape Scalars.plus Scalars.pmap 1
              (mk_LogisticRegression (Some 1)) 2 5 1 2 3 6 4 1 2
              (mk_BatchedLogisticRegression (Some 1) "single")
              2 5 1 2 3 6 4 1 2 []) as (H1 & H2 & _).
  destruct (fit_is_one_newton_step Scalars.array Scalars.shape
              Scalars.call_solver Scalars.times Scalars.times Scalars.times
              Scalars.times Scalars.times Scalars.minus Scalars.times
              Scalars.times Scalars.same Scalars.same Scalars.plus
              Scalars.minus Scalars.same Scalars.slice Scalars.slice
              Scalars.reshape Scalars.plus Scalars.pmap 1
              (mk_LogisticRegression (Some 1)) 2 5 1 2 3 6 4 1 2
              (mk_BatchedLogisticRegression (Some 1) "gpu")
              2 5 1 2 3 6 4 1 2 []) as (_ & _ & H3).
  split; [| split].
  - apply H1; reflexivity.
  - apply H2; reflexivity.
  - apply H3; reflexivity.
Defined.

(** A batched logistic model made with an acceleration name the class does
    not know: [fit] raises and no solver is called, so no Newton step is
    taken; with ["pmap"] it raises as well. *)
Lemma batched_fit_without_step :
  BatchedLogisticRegression_fit Scalars.array Scalars.shape
    Scalars.call_solver Scalars.times Scalars.times Scalars.minus
    Scalars.times Scalars.times Scalars.same Scalars.plus Scalars.same
    Scalars.slice Scalars.slice Scalars.reshape Scalars.plus Scalars.pmap 1
    (mk_BatchedLogisticRegression (Some 1) "gpu") 2 5 []
  = (Raise (ValueError "gpu acceleration is not supported."), []) /\
  BatchedLogisticRegression_fit Scalars.array Scalars.shape
    Scalars.call_solver Scalars.times Scalars.times Scalars.minus
    Scalars.times Scalars.times Scalars.same Scalars.plus Scalars.same
    Scalars.slice Scalars.slice Scalars.reshape Scalars.plus Scalars.pmap 1
    (mk_BatchedLogisticRegression (Some 1) "pmap") 2 5 []
  = (Raise (AttributeError "jax_cpu_cores"), []).
Proof. split; reflexivity. Qed.

(** [Vectors]: an array is a vector of integers; the solver answers with its
    right-hand side and a product with its right factor. *)
Module Vectors.
Definition array : Type := list Z.
Definition shape (a : array) : list nat := [length a].
Definition call_solver (algo : solver) (A b : array) : result array := Ok b.
Definition matmul (a b : array) : result array := Ok b.
Definition same (a : array) : array := a.
Definition toarray (a : array) : result array := Ok a.
Definition dense (a : array) : result array :=
  Raise (AttributeError "toarray").
End Vectors.

Lemma fit_is_constructor_from_statistics_witness :
  LinearRegression_fit Scalars.array Scalars.call_solver
    (fun X => Scalars.times X X) Scalars.times 2 5 CholeskySolver false []
  = LinearRegression_init Scalars.array Scalars.call_solver None (Some 4)
      (Some 10) CholeskySolver false [] /\
  BatchedLinearRegression_fit Scalars.array Scalars.call_solver
    (fun X => Scalars.times X X) Scalars.times 2 5 BatchedCholeskySolver
    false []
  = BatchedLinearRegression_init Scalars.array Scalars.call_solver None
      (Some 4) (Some 10) BatchedCholeskySolver false [].
Proof.
  split.
  - apply (fit_is_constructor_from_statistics Scalars.array
             Scalars.call_solver (fun X => Scalars.times X X) Scalars.times
             (fun X => Scalars.times X X) Scalars.times
             2 5 4 10 4 10 CholeskySolver false []); reflexivity.
  - apply (fit_is_constructor_from_statistics Scalars.array
             Scalars.call_solver (fun X => Scalars.times X X) Scalars.times
             (fun X => Scalars.times X X) Scalars.times
             2 5 4 10 4 10 BatchedCholeskySolver false []); reflexivity.
Defined.

Lemma blocked_dimension_check_order_witness :
  (exists msg,
     BlockedLinearRegression_init Vectors.array Vectors.shape
       Vectors.call_solver None (Some [1; 2; 3]) (Some [4; 5; 6]) 2
       InverseSolver []
     = (Raise (ValueError msg), [])) /\
  (exists msg,
     BlockedLinearRegression_fit Vectors.array Vectors.shape
       Vectors.call_solver Vectors.same Vectors.matmul Vectors.toarray
       [1; 2; 3] [4; 5; 6] 2 InverseSolver []
     = (Raise (ValueError msg),
        [Solve InverseSolver [1; 2; 3] [4; 5; 6]])) /\
  BlockedLinearRegression_fit Vectors.array Vectors.shape
    Vectors.call_solver Vectors.same Vectors.matmul Vectors.dense
    [1; 2; 3] [4; 5; 6] 2 InverseSolver []
  = (Raise (AttributeError "toarray"), []).
Proof.
  destruct (blocked_dimension_check_order Vectors.array Vectors.shape
              Vectors.call_solver Vectors.same Vectors.matmul Vectors.toarray
              [1; 2; 3] [4; 5; 6] [1; 2; 3] [4; 5; 6] [1; 2; 3] [1; 2; 3]
              [4; 5; 6] [4; 5; 6] InverseSolver 2 3 3 [] []
              (AttributeError "toarray") []
              eq_refl eq_refl eq_refl)
    as (H1 & _ & H2 & _).
  destruct (blocked_dimension_check_order Vectors.array Vectors.shape
              Vectors.call_solver Vectors.same Vectors.matmul Vectors.dense
              [1; 2; 3] [4; 5; 6] [1; 2; 3] [4; 5; 6] [1; 2; 3] [1; 2; 3]
              [4; 5; 6] [4; 5; 6] InverseSolver 2 3 3 [] []
              (AttributeError "toarray") []
              eq_refl eq_refl eq_refl)
    as (_ & _ & _ & H3).
  split; [| split].
  - apply H1; discriminate.
  - apply (H2 eq_refl eq_refl eq_refl eq_refl); discriminate.
  - apply H3. reflexivity.
Defined.

Lemma blocked_model_invariant_witness :
  exists c n s,
    blk_beta Vectors.array (mk_BlockedLinearRegression (Some [4; 5; 6; 7]) 2)
    = Some c /\
    blk_nmodels Vectors.array
      (mk_BlockedLinearRegression (Some [4; 5; 6; 7]) 2) = 2 /\
    Vectors.shape c = n :: s /\ 2 <> 0 /\
    BlockedLinearRegression_coef_dim Vectors.array Vectors.shape
      (mk_BlockedLinearRegression (Some [4; 5; 6; 7]) 2)
    = Ok (Z.of_nat n / 2) /\
    Z.of_nat n / 2 * 2 = Z.of_nat n /\
    forall nobs,
      BlockedLinearRegression_dof Vectors.array Vectors.shape
        (mk_BlockedLinearRegression (Some [4; 5; 6; 7]) 2) nobs
      = Ok (nobs - Z.of_nat n / 2).
Proof.
  apply (blocked_model_invariant Vectors.array Vectors.shape
           Vectors.call_solver Vectors.same Vectors.matmul Vectors.toarray
           [4; 5; 6; 7] [1; 2; 3; 4] [4; 5; 6; 7] None None 2 InverseSolver
           [] [Solve InverseSolver [1; 2; 3; 4] [4; 5; 6; 7]]).
  right. reflexivity.
Defined.

Lemma plain_logistic_has_no_fallback_witness :
  LogisticRegression_fit Scalars.array Scalars.call_solver Scalars.times
    Scalars.times Scalars.times Scalars.same Scalars.same Scalars.plus
    Scalars.minus (mk_LogisticRegression (Some 1)) 0 5 []
  = (Raise LinAlgError, [Solve CholeskySolver 0 0]).
Proof.
  apply (plain_logistic_has_no_fallback Scalars.array Scalars.call_solver
           Scalars.times Scalars.times Scalars.times Scalars.same
           Scalars.same Scalars.plus Scalars.minus
           (mk_LogisticRegression (Some 1)) 0 5 1 0 5 0 0 LinAlgError []);
    reflexivity.
Defined.

Lemma acceleration_checked_on_use_witness :
  BatchedLogisticRegression_fit Scalars.array Scalars.shape
    Scalars.call_solver Scalars.times Scalars.times Scalars.minus
    Scalars.times Scalars.times Scalars.same Scalars.plus Scalars.same
    Scalars.slice Scalars.slice Scalars.reshape Scalars.plus Scalars.pmap 1
    (mk_BatchedLogisticRegression (Some 1) "gpu") 2 5 []
  = (Raise (ValueError "gpu acceleration is not supported."), []) /\
  BatchedLinearRegression_sse Scalars.array Scalars.shape Scalars.times
    Scalars.minus Scalars.slice Scalars.slice Scalars.reshape Scalars.plus
    Scalars.pmap 1 Scalars.times
    (mk_BatchedLinearRegression (Some 1) false) 2 5 "gpu"
  = Raise (ValueError "gpu acceleration is not supported.").
Proof.
  destruct (acceleration_checked_on_use Scalars.array Scalars.shape
              Scalars.call_solver Scalars.times Scalars.times Scalars.minus
              Scalars.times Scalars.times Scalars.same Scalars.plus
              Scalars.minus Scalars.same Scalars.slice Scalars.slice
              Scalars.reshape Scalars.plus Scalars.pmap 1 Scalars.times
              (Some 1) "gpu" 2 5 (mk_BatchedLinearRegression (Some 1) false)
              [] eq_refl)
    as (_ & _ & _ & _ & _ & H1 & _ & _ & H2).
  split; [exact H1 | exact H2].
Defined.

Lemma batched_beta_retries_with_inverse_witness :
  BatchedLogisticRegression_beta Scalars.array Scalars.call_solver
    Scalars.plus (mk_BatchedLogisticRegression (Some 1) "single") 6 0
    BatchedInverseSolver []
  = (Raise LinAlgError,
     [Solve BatchedInverseSolver 0 6; Solve BatchedInverseSolver 0 6]).
Proof.
  apply (batched_beta_retries_with_inverse Scalars.array Scalars.call_solver
           Scalars.plus (mk_BatchedLogisticRegression (Some 1) "single") 6 0
           BatchedInverseSolver LinAlgError []).
  reflexivity.
Defined.

End Regression.


(** ** The blocked model on vectors of numbers

    Here the arrays of [BlockedLinearRegression] are lists: a vector is the
    list of its entries and the stacked design is given by its number of
    columns and its rows.  The inner products are parameters: nothing is
    assumed about the arithmetic of the entries or about the order in which
    a kernel adds its products. *)

Module Blocked.

(** [np.cumsum]. *)
Fixpoint cumsum_from (acc : nat) (l : list nat) : list nat :=
  match l with
  | [] => []
  | x :: l' => (acc + x)%nat :: cumsum_from (acc + x) l'
  end.

Definition cumsum (l : list nat) : list nat := cumsum_from 0 l.

(** What the comprehension of [sse] computes, block after block. *)
Fixpoint walk {T : Type} (f : nat -> nat -> T) (start : nat) (counts : list nat)
  : list T :=
  match counts with
  | [] => []
  | n :: counts' => f start (start + n)%nat :: walk f (start + n) counts'
  end.

Lemma cumsum_from_length (acc : nat) (l : list nat) :
  length (cumsum_from acc l) = length l.
Proof.
  revert acc. induction l as [|x l IH]; intros acc; simpl;
    [reflexivity | now rewrite IH].
Qed.

Lemma walk_by_index {T : Type} (f : nat -> nat -> T) (start : nat)
    (counts : list nat) :
  map (fun i => f (nth i (start :: cumsum_from start counts) 0%nat)
                  (nth (i + 1) (start :: cumsum_from start counts) 0%nat))
      (seq 0 (length counts))
  = walk f start counts.
Proof.
  revert start. induction counts as [|n counts IH]; intros start.
  - reflexivity.
  - cbn [length walk cumsum_from]. rewrite <- cons_seq. cbn [map].
    f_equal. rewrite <- seq_shift, map_map.
    rewrite <- (IH (start + n)%nat). apply map_ext. intros i. reflexivity.
Qed.

Section Numbers.

Variable num : Type.
(** Subtraction of two entries. *)
Variable sub : num -> num -> num.
(** [a @ b] for two one-dimensional arrays of one length. *)
Variable dot : list num -> list num -> num.
(** One entry of [X @ b]: a row of the design times the vector. *)
Variable inner : list num -> list num -> num.

Definition vector : Type := list num.

(** A two-dimensional design: its number of columns and its rows, each of
    that many entries. *)
Record design : Type := mk_design {
  ncols : nat;
  rows : list vector
}.

Record BlockedLinearRegression : Type := mk_BlockedLinearRegression {
  blk_beta : vector;
  blk_nmodels : nat
}.

(** [X @ b] for a vector [b]: defined when [X] has one column for each
    entry of [b]. *)
Definition matvec (X : design) (b : vector) : result vector :=
  if Nat.eqb (ncols X) (length b)
  then Ok (map (fun row => inner row b) (rows X))
  else Raise (ValueError "dimension mismatch").

(** [a - b] on one-dimensional arrays: entry by entry for equal lengths; an
    array of a single entry is broadcast along the other; other lengths
    raise. *)
Definition np_sub (a b : vector) : result vector :=
  if Nat.eqb (length a) (length b) then Ok (zip_with sub a b)
  else match a, b with
       | [x], _ => Ok (map (fun v => sub x v) b)
       | _, [v] => Ok (map (fun x => sub x v) a)
       | _, _ =>
           Raise (ValueError "operands could not be broadcast together")
       end.

Definition predict (self : BlockedLinearRegression) (X : design)
  : result vector :=
  matvec X (blk_beta self).

Definition residual (self : BlockedLinearRegression) (X : design) (y : vector)
  : result vector :=
  yhat <- predict self X ;;
  np_sub y yhat.

(** [v[start:stop]] for indices that are not negative. *)
Definition slice (v : vector) (start stop : nat) : vector :=
  firstn (stop - start) (skipn start v).

(** [sse(X, y, nobss)]; [nobss] holds the sample counts of the blocks, and
    [np.insert(nobss, 0, [0.])] puts a zero in front of them. *)
Definition sse (self : BlockedLinearRegression) (X : design) (y : vector)
    (nobss : list nat) : result (list num) :=
  res <- residual self X y ;;
  let block_starts := cumsum (0%nat :: nobss) in
  Ok (map (fun i =>
             let r := slice res (nth i block_starts 0%nat)
                                (nth (i + 1) block_starts 0%nat) in
             dot r r)
          (seq 0 (length block_starts - 1))).

(** The consecutive blocks of [v] whose lengths are given by [counts]. *)
Fixpoint split_blocks (counts : list nat) (v : vector) : list vector :=
  match counts with
  | [] => []
  | n :: counts' => firstn n v :: split_blocks counts' (skipn n v)
  end.

(** The residual vector of a design with one row for each response and one
    column for each coefficient. *)
Definition residuals (self : BlockedLinearRegression) (X : design)
    (y : vector) : vector :=
  zip_with sub y (map (fun row => inner row (blk_beta self)) (rows X)).

Lemma residual_well_shaped (self : BlockedLinearRegression) (X : design)
    (y : vector) :
  ncols X = length (blk_beta self) ->
  length y = length (rows X) ->
  residual self X y = Ok (residuals self X y) /\
  length (residuals self X y) = length y.
Proof.
  intros Hc Hy. split.
  - unfold residual, predict, matvec, np_sub, residuals.
    rewrite (proj2 (Nat.eqb_eq _ _) Hc). cbn [bind].
    rewrite length_map. unfold vector in *.
    rewrite (proj2 (Nat.eqb_eq _ _) Hy). reflexivity.
  - unfold residuals. apply zip_with_length. now rewrite length_map.
Qed.

Lemma walk_slices (res : vector) (start : nat) (counts : list nat) :
  walk (fun a b => let r := slice res a b in dot r r) start counts
  = map (fun r => dot r r) (split_blocks counts (skipn start res)).
Proof.
  revert start. induction counts as [|n counts IH]; intros start; simpl.
  - reflexivity.
  - unfold slice at 1 2.
    replace (start + n - start)%nat with n by lia.
    f_equal. rewrite IH, skipn_skipn.
    now rewrite (Nat.add_comm n start).
Qed.

Lemma split_blocks_concat (counts : list nat) (v : vector) :
  concat (split_blocks counts v) = firstn (list_sum counts) v.
Proof.
  revert v. induction counts as [|n counts IH]; intros v; simpl.
  - reflexivity.
  - now rewrite IH, firstn_plus.
Qed.

Lemma split_blocks_length (counts : list nat) (v : vector) :
  length (split_blocks counts v) = length counts.
Proof.
  revert v. induction counts as [|n counts IH]; intros v; simpl;
    [reflexivity | now rewrite IH].
Qed.

Lemma split_blocks_sizes (counts : list nat) (v : vector) :
  (list_sum counts <= length v)%nat ->
  map (@length num) (split_blocks counts v) = counts.
Proof.
  revert v. induction counts as [|n counts IH]; intros v Hle; simpl in *.
  - reflexivity.
  - rewrite length_firstn, IH.
    + f_equal. lia.
    + rewrite length_skipn. lia.
Qed.

(** What [sse] returns once the residual vector is known. *)
Lemma sse_of_residual (self : BlockedLinearRegression) (X : design)
    (y : vector) (nobss : list nat) (res : vector) :
  residual self X y = Ok res ->
  sse self X y nobss = Ok (map (fun r => dot r r) (split_blocks nobss res)).
Proof.
  intros Hres. unfold sse, cumsum. rewrite Hres. cbn [bind cumsum_from].
  cbn [length]. rewrite Nat.sub_succ, Nat.sub_0_r, cumsum_from_length.
  cbn [Nat.add].
  rewrite (walk_by_index (fun a b => let r := slice res a b in dot r r)).
  rewrite walk_slices. reflexivity.
Qed.

(** C8 (as amended): for a design with one row for each response and one
    column for each coefficient, [sse(X, y, nobss)] returns one value for
    each block, [r.T @ r] for the piece [r] of the residual vector
    [y - X @ beta] between two consecutive cumulative sums of [nobss]; when
    [nobss] has one count for each model and the counts add up to the
    number of residuals, there are [nmodels] values, block [i] holds
    [nobss[i]] residuals, and the blocks in their order make up the whole
    residual vector. *)
Theorem sse_per_block (self : BlockedLinearRegression) (X : design)
    (y : vector) (nobss : list nat) :
  ncols X = length (blk_beta self) ->
  length y = length (rows X) ->
  length nobss = blk_nmodels self ->
  list_sum nobss = length y ->
  residual self X y = Ok (residuals self X y) /\
  sse self X y nobss
  = Ok (map (fun r => dot r r) (split_blocks nobss (residuals self X y))) /\
  length (split_blocks nobss (residuals self X y)) = blk_nmodels self /\
  map (@length num) (split_blocks nobss (residuals self X y)) = nobss /\
  concat (split_blocks nobss (residuals self X y)) = residuals self X y.
Proof.
  intros Hc Hy Hk Hsum.
  destruct (residual_well_shaped self X y Hc Hy) as [Hres Hlen].
  split; [exact Hres | split; [now apply sse_of_residual | split; [| split]]].
  - now rewrite split_blocks_length.
  - apply split_blocks_sizes. rewrite Hlen, Hsum. lia.
  - rewrite split_blocks_concat, Hsum, <- Hlen. apply firstn_all.
Qed.

(** [sse] reads [nmodels] nowhere and checks [nobss] against nothing: for a
    design with one row for each response and one column for each
    coefficient it returns one value for each entry of [nobss], and the
    pieces these values are computed from make up the first [sum(nobss)]
    residuals, so samples beyond the counts enter no value, and counts that
    reach past the samples cover the whole residual vector. *)
Theorem sse_covers_counted_residuals (self : BlockedLinearRegression)
    (X : design) (y : vector) (nobss : list nat) (k : nat) :
  ncols X = length (blk_beta self) ->
  length y = length (rows X) ->
  sse self X y nobss
  = Ok (map (fun r => dot r r) (split_blocks nobss (residuals self X y))) /\
  sse (mk_BlockedLinearRegression (blk_beta self) k) X y nobss
  = sse self X y nobss /\
  length (split_blocks nobss (residuals self X y)) = length nobss /\
  concat (split_blocks nobss (residuals self X y))
  = firstn (list_sum nobss) (residuals self X y) /\
  ((length y <= list_sum nobss)%nat ->
   concat (split_blocks nobss (residuals self X y)) = residuals self X y).
Proof.
  intros Hc Hy.
  destruct (residual_well_shaped self X y Hc Hy) as [Hres Hlen].
  split; [now apply sse_of_residual | split; [reflexivity | split; [| split]]].
  - apply split_blocks_length.
  - apply split_blocks_concat.
  - intros Hle. rewrite split_blocks_concat. apply firstn_all2.
    now rewrite Hlen.
Qed.

(** A design whose shapes do not fit raises before any slice is taken. *)
Lemma sse_shape_errors (self : BlockedLinearRegression) (X : design)
    (y : vector) (nobss : list nat) :
  ncols X <> length (blk_beta self) ->
  sse self X y nobss = Raise (ValueError "dimension mismatch").
Proof.
  intros Hc. apply Nat.eqb_neq in Hc.
  unfold sse, residual, predict, matvec. now rewrite Hc.
Qed.

End Numbers.

Arguments mk_BlockedLinearRegression {num} blk_beta blk_nmodels.
Arguments mk_design {num} ncols rows.

(** The inner product of integer vectors, products added from the first
    index on. *)
Definition Zdot (a b : list Z) : Z :=
  fold_left Z.add (zip_with Z.mul a b) 0.

(** Two models of one coefficient each, with two samples and one sample:
    the residuals are [2; 3; 3] and the blocks give [13] and [9]. *)
Example sse_unequal_blocks :
  sse Z Z.sub Zdot Zdot (mk_BlockedLinearRegression [1; 2] 2)
      (mk_design 2 [[1; 0]; [1; 0]; [0; 1]]) [3; 4; 5] [2%nat; 1%nat]
  = Ok [13; 9].
Proof. reflexivity. Qed.

Lemma sse_per_block_witness :
  let self := mk_BlockedLinearRegression [1; 2] 2 in
  let X := mk_design 2 [[1; 0]; [1; 0]; [0; 1]] in
  let y := [3; 4; 5] in
  residual Z Z.sub Zdot self X y = Ok [2; 3; 3] /\
  sse Z Z.sub Zdot Zdot self X y [2%nat; 1%nat] = Ok [13; 9] /\
  length (split_blocks Z [2%nat; 1%nat] [2; 3; 3]) = 2%nat /\
  map (@length Z) (split_blocks Z [2%nat; 1%nat] [2; 3; 3])
  = [2%nat; 1%nat] /\
  concat (split_blocks Z [2%nat; 1%nat] [2; 3; 3]) = [2; 3; 3].
Proof.
  intros self X y.
  apply (sse_per_block Z Z.sub Zdot Zdot self X y [2%nat; 1%nat]);
    reflexivity.
Defined.

Lemma sse_covers_counted_residuals_witness :
  let self := mk_BlockedLinearRegression [1; 2] 2 in
  let X := mk_design 2 [[1; 0]; [1; 0]; [0; 1]] in
  let y := [3; 4; 5] in
  sse Z Z.sub Zdot Zdot self X y [2%nat] = Ok [13] /\
  sse Z Z.sub Zdot Zdot (mk_BlockedLinearRegression [1; 2] 7) X y [2%nat]
  = sse Z Z.sub Zdot Zdot self X y [2%nat] /\
  length (split_blocks Z [2%nat] [2; 3; 3]) = 1%nat /\
  concat (split_blocks Z [2%nat] [2; 3; 3]) = [2; 3] /\
  concat (split_blocks Z [2%nat; 7%nat] [2; 3; 3]) = [2; 3; 3].
Proof.
  intros self X y.
  destruct (sse_covers_counted_residuals Z Z.sub Zdot Zdot self X y
              [2%nat] 7 eq_refl eq_refl) as (H1 & H2 & H3 & H4 & _).
  destruct (sse_covers_counted_residuals Z Z.sub Zdot Zdot self X y
              [2%nat; 7%nat] 7 eq_refl eq_refl) as (_ & _ & _ & _ & H5).
  split; [exact H1 | split; [exact H2 | split; [exact H3 | split]]].
  - exact H4.
  - apply H5. simpl. lia.
Defined.

(** *** The same computation on binary64 numbers *)

Module Binary64.

Import PrimFloat.

(** The inner product as a loop over the index: the products are added one
    after the other to a sum that starts at zero. *)
Definition fdot (a b : list float) : float :=
  fold_left PrimFloat.add (zip_with PrimFloat.mul a b) 0%float.

(** Two models with one sample and two samples; the coefficients are zero,
    so the residuals are the responses [1e8; 1; 1].  The two values of
    [sse] are [1e16] and [2], whose sum is [1e16 + 2], while the inner
    product of the whole residual vector with itself is [1e16]: the two
    ones are lost one at a time. *)
Lemma sse_sum_differs_from_whole :
  let self := mk_BlockedLinearRegression [0%float; 0%float] 2 in
  let X := mk_design 2 [[1%float; 0%float]; [0%float; 1%float];
                        [0%float; 1%float]] in
  let y := [1e8%float; 1%float; 1%float] in
  residual float PrimFloat.sub fdot self X y = Ok y /\
  sse float PrimFloat.sub fdot fdot self X y [1%nat; 2%nat]
  = Ok [1e16%float; 2%float] /\
  PrimFloat.eqb (1e16 + 2)%float (fdot y y) = false /\
  fdot y y = 1e16%float.
Proof. vm_compute. repeat split. Qed.

End Binary64.

End Blocked.


(** ** Partition of a batch among workers

    The batch axis made explicit: a batch is the list of its leading-axis
    slices.  The number of workers is an argument here. *)

Module Partition.

Section Kernel.

(** One unit of the batch: its design matrix, its coefficients, its
    predictions; [mvmul] is the product for one unit. *)
Variables design coefs prediction : Type.
Variable mvmul : design -> coefs -> prediction.

(** Modelled from the spec: [linalg.batched_mvmul] (missing from the
    sources), one matrix-vector product for each slice of the batch. *)
Definition batched_mvmul (X : list design) (b : list coefs) : list prediction :=
  zip_with mvmul X b.

(** [np.reshape(v, (ncores, minibatch, ...))] of [ncores * minibatch]
    slices: [ncores] consecutive groups of [minibatch] slices. *)
Fixpoint chunks {T : Type} (ncores minibatch : nat) (v : list T)
  : list (list T) :=
  match ncores with
  | O => []
  | S c => firstn minibatch v :: chunks c minibatch (skipn minibatch v)
  end.

(** [pmap(f, in_axes=(0, 0), out_axes=0)]: [f] on each pair of groups. *)
Definition pmap {A B C : Type} (f : A -> B -> C) (xs : list A) (ys : list B)
  : list C :=
  zip_with f xs ys.

Definition predict_single (X : list design) (coef : list coefs)
  : list prediction :=
  batched_mvmul X coef.

(** The [pmap] branch of [predict] from the line after the worker count. *)
Definition predict_pmap (ncores : nat) (X : list design) (coef : list coefs)
  : list prediction :=
  let batch := length X in
  let minibatch := Nat.div batch ncores in
  let remainder := Nat.modulo batch ncores in
  let A := chunks ncores minibatch (firstn (minibatch * ncores) X) in
  let a := chunks ncores minibatch (firstn (minibatch * ncores) coef) in
  let Y := concat (pmap batched_mvmul A a) in
  if negb (Nat.eqb remainder 0)
  then Y ++ batched_mvmul (skipn (minibatch * ncores) X)
                          (skipn (minibatch * ncores) coef)
  else Y.

Lemma chunks_flat {A B C : Type} (f : A -> B -> C) (c m : nat) :
  forall (xs : list A) (ys : list B),
    length xs = length ys ->
    concat (zip_with (zip_with f) (chunks c m xs) (chunks c m ys))
    = zip_with f (firstn (c * m) xs) (firstn (c * m) ys).
Proof.
  induction c as [|c IH]; intros xs ys Hlen.
  - reflexivity.
  - cbn [chunks zip_with concat Nat.mul].
    rewrite !firstn_plus, zip_with_app, IH.
    + reflexivity.
    + now rewrite !length_skipn, Hlen.
    + now rewrite !length_firstn, Hlen.
Qed.

Lemma zip_with_split {A B C : Type} (f : A -> B -> C) (k : nat)
    (xs : list A) (ys : list B) :
  length xs = length ys ->
  zip_with f (firstn k xs) (firstn k ys) ++ zip_with f (skipn k xs) (skipn k ys)
  = zip_with f xs ys.
Proof.
  intros Hlen. rewrite <- zip_with_app.
  - now rewrite !firstn_skipn.
  - now rewrite !length_firstn, Hlen.
Qed.

(** With a positive number of workers and one coefficient vector for each
    unit, the partitioned computation returns the predictions of the single
    pass, in the order of the batch, whether or not the batch size is a
    multiple of the number of workers. *)
Lemma predict_pmap_single (ncores : nat) (X : list design)
    (coef : list coefs) :
  ncores <> O ->
  length coef = length X ->
  predict_pmap ncores X coef = predict_single X coef.
Proof.
  intros Hc Hlen. unfold predict_pmap, predict_single, pmap, batched_mvmul.
  set (m := Nat.div (length X) ncores).
  assert (Hk : (m * ncores <= length X)%nat).
  { unfold m. rewrite Nat.mul_comm. now apply Nat.Div0.mul_div_le. }
  rewrite chunks_flat
    by (rewrite !length_firstn, Hlen; reflexivity).
  rewrite (Nat.mul_comm ncores m), !firstn_firstn, Nat.min_id.
  destruct (Nat.eqb_spec (Nat.modulo (length X) ncores) 0) as [Hr | Hr];
    cbn [negb].
  - assert (Hall : (m * ncores)%nat = length X).
    { unfold m. pose proof (Nat.div_mod_eq (length X) ncores) as E.
      rewrite Hr, Nat.add_0_r, Nat.mul_comm in E. now symmetry. }
    rewrite Hall. rewrite <- Hlen at 2. now rewrite !firstn_all.
  - apply zip_with_split. now symmetry.
Qed.

End Kernel.

(** Five units on two workers: two groups of two and a remainder of one. *)
Example predict_pmap_five_on_two :
  predict_pmap Z Z Z Z.mul 2 [1; 2; 3; 4; 5] [10; 20; 30; 40; 50]
  = [10; 40; 90; 160; 250].
Proof. reflexivity. Qed.

Lemma predict_pmap_single_witness :
  predict_pmap Z Z Z Z.mul 2 [1; 2; 3; 4; 5] [10; 20; 30; 40; 50]
  = predict_single Z Z Z Z.mul [1; 2; 3; 4; 5] [10; 20; 30; 40; 50].
Proof.
  apply (predict_pmap_single Z Z Z Z.mul 2 [1; 2; 3; 4; 5]
           [10; 20; 30; 40; 50]); [discriminate | reflexivity].
Defined.

End Partition.


(** ** The bias column

    [add_bias] on two-dimensional arrays: an array is given by its shape and
    its rows. *)

Module Bias.

(** The position that Python gives to index [i] in a sequence of [len]
    items; negative indices count from the end. *)
Definition py_index (len : nat) (i : Z) : result nat :=
  if (0 <=? i) && (i <? Z.of_nat len) then Ok (Z.to_nat i)
  else if (- Z.of_nat len <=? i) && (i <? 0)
       then Ok (Z.to_nat (Z.of_nat len + i))
       else Raise IndexError.

Fixpoint list_set (l : list nat) (k : nat) (v : nat) : list nat :=
  match l, k with
  | [], _ => []
  | _ :: l', O => v :: l'
  | x :: l', S k' => x :: list_set l' k' v
  end.

(** [l[i] = v] on a Python list. *)
Definition py_setitem (l : list nat) (i : Z) (v : nat) : result (list nat) :=
  k <- py_index (length l) i ;;
  Ok (list_set l k v).

Section Numbers.

Variable num : Type.
(** The number 1 that [np.ones] fills its array with. *)
Variable one : num.

Record ndarray : Type := mk_ndarray {
  nrows : nat;
  ncols : nat;
  rows : list (list num)
}.

Definition well_formed (X : ndarray) : Prop :=
  length (rows X) = nrows X /\
  Forall (fun r => length r = ncols X) (rows X).

(** [list(X.shape)]. *)
Definition shape (X : ndarray) : list nat := [nrows X; ncols X].

(** [np.ones(dims)] for two dimensions. *)
Definition np_ones (dims : list nat) : ndarray :=
  let n := nth 0 dims O in
  let d := nth 1 dims O in
  mk_ndarray n d (repeat (repeat one d) n).

(** [np.concatenate((A, B), axis=axis)] for two-dimensional arrays. *)
Definition np_concatenate (A B : ndarray) (axis : Z) : result ndarray :=
  k <- py_index 2 axis ;;
  match k with
  | O =>
      if Nat.eqb (ncols A) (ncols B)
      then Ok (mk_ndarray (nrows A + nrows B) (ncols A) (rows A ++ rows B))
      else Raise (ValueError "all the input array dimensions must match")
  | _ =>
      if Nat.eqb (nrows A) (nrows B)
      then Ok (mk_ndarray (nrows A) (ncols A + ncols B)
                 (zip_with (@app num) (rows A) (rows B)))
      else Raise (ValueError "all the input array dimensions must match")
  end.

Definition add_bias (X : ndarray) (axis : Z) : result ndarray :=
  let dims := shape X in
  dims <- py_setitem dims axis 1%nat ;;
  let bias := np_ones dims in
  np_concatenate bias X axis.

Lemma zip_ones (n : nat) (l : list (list num)) :
  length l = n ->
  zip_with (@app num) (repeat [one] n) l = map (cons one) l.
Proof.
  revert n. induction l as [|r l IH]; intros [|n] H; simpl in *;
    try reflexivity; try discriminate.
  f_equal. apply IH. now injection H.
Qed.

(** [add_bias] on an array of [n] rows and [d] columns: along axis 1 (or
    -1) every row gets a leading 1, along axis 0 (or -2) a row of [d] ones
    comes first, and any other axis raises [IndexError]; whatever it returns
    is again a well-formed array. *)
Theorem add_bias_spec (X : ndarray) (axis : Z) :
  well_formed X ->
  (axis = 1 \/ axis = -1 ->
   add_bias X axis
   = Ok (mk_ndarray (nrows X) (S (ncols X)) (map (cons one) (rows X)))) /\
  (axis = 0 \/ axis = -2 ->
   add_bias X axis
   = Ok (mk_ndarray (S (nrows X)) (ncols X)
           (repeat one (ncols X) :: rows X))) /\
  (axis < -2 \/ 2 <= axis -> add_bias X axis = Raise IndexError) /\
  (forall X', add_bias X axis = Ok X' -> well_formed X').
Proof.
  intros [Hn Hd].
  assert (H1 : axis = 1 \/ axis = -1 ->
               add_bias X axis
               = Ok (mk_ndarray (nrows X) (S (ncols X))
                       (map (cons one) (rows X)))).
  { intros [-> | ->]; unfold add_bias, py_setitem, np_concatenate, np_ones;
      cbn; rewrite Nat.eqb_refl; cbn; now rewrite zip_ones. }
  assert (H0 : axis = 0 \/ axis = -2 ->
               add_bias X axis
               = Ok (mk_ndarray (S (nrows X)) (ncols X)
                       (repeat one (ncols X) :: rows X))).
  { intros [-> | ->]; unfold add_bias, py_setitem, np_concatenate, np_ones;
      cbn; now rewrite Nat.eqb_refl. }
  assert (Hbad : axis < -2 \/ 2 <= axis -> add_bias X axis = Raise IndexError).
  { intros Hax. unfold add_bias, py_setitem, py_index. cbn [shape length].
    destruct (Z.leb_spec 0 axis), (Z.ltb_spec axis (Z.of_nat 2)),
      (Z.leb_spec (- Z.of_nat 2) axis), (Z.ltb_spec axis 0);
      cbn [andb bind]; try reflexivity; lia. }
  split; [exact H1 | split; [exact H0 | split; [exact Hbad |]]].
  intros X' HX'.
  assert (Hcases : (axis = 1 \/ axis = -1) \/ (axis = 0 \/ axis = -2) \/
                   (axis < -2 \/ 2 <= axis)) by lia.
  destruct Hcases as [Hc | [Hc | Hc]].
  - rewrite (H1 Hc) in HX'. injection HX' as <-. split; cbn.
    + now rewrite length_map.
    + apply Forall_map. eapply Forall_impl; [| exact Hd].
      intros r Hr. cbn. now rewrite Hr.
  - rewrite (H0 Hc) in HX'. injection HX' as <-. split; cbn.
    + now rewrite Hn.
    + constructor; [apply repeat_length | exact Hd].
  - rewrite (Hbad Hc) in HX'. discriminate.
Qed.

End Numbers.

Arguments mk_ndarray {num} nrows ncols rows.

Lemma add_bias_spec_witness :
  add_bias Z 1 (mk_ndarray 2 2 [[3; 4]; [5; 6]]) 1
  = Ok (mk_ndarray 2 3 [[1; 3; 4]; [1; 5; 6]]) /\
  add_bias Z 1 (mk_ndarray 2 2 [[3; 4]; [5; 6]]) (-2)
  = Ok (mk_ndarray 3 2 [[1; 1]; [3; 4]; [5; 6]]) /\
  add_bias Z 1 (mk_ndarray 2 2 [[3; 4]; [5; 6]]) 2 = Raise IndexError /\
  well_formed Z (mk_ndarray 2 3 [[1; 3; 4]; [1; 5; 6]]).
Proof.
  assert (Hwf : well_formed Z (mk_ndarray 2 2 [[3; 4]; [5; 6]])).
  { split; [reflexivity | repeat constructor]. }
  destruct (add_bias_spec Z 1 (mk_ndarray 2 2 [[3; 4]; [5; 6]]) 1 Hwf)
    as (H1 & _ & _ & H4).
  destruct (add_bias_spec Z 1 (mk_ndarray 2 2 [[3; 4]; [5; 6]]) (-2) Hwf)
    as (_ & H2 & _).
  destruct (add_bias_spec Z 1 (mk_ndarray 2 2 [[3; 4]; [5; 6]]) 2 Hwf)
    as (_ & _ & H3 & _).
  split; [apply H1; now left | split; [apply H2; now right | split]].
  - apply H3. right. lia.
  - apply H4. reflexivity.
Defined.

End Bias.


(** ** Running a shell command

    [utils.bash] with the command as its only argument.  What the child
    process does is a parameter: for a command it gives the bytes written
    to the two streams and the return code. *)

Module Shell.

Import Ascii.
#[local] Arguments Ascii.eqb : simpl never.

Definition CR : ascii := "013"%char.
Definition LF : ascii := "010"%char.

Definition is_crlf (c : ascii) : bool := Ascii.eqb c CR || Ascii.eqb c LF.

(** [s.rstrip("\r\n")]: trailing carriage returns and line feeds removed. *)
Fixpoint rstrip (s : string) : string :=
  match s with
  | EmptyString => EmptyString
  | String c s' =>
      match rstrip s' with
      | EmptyString => if is_crlf c then EmptyString else String c EmptyString
      | r => String c r
      end
  end.

(** [s.split("\n")]. *)
Fixpoint split (s : string) : list string :=
  match s with
  | EmptyString => [EmptyString]
  | String c s' =>
      if Ascii.eqb c LF then EmptyString :: split s'
      else match split s' with
           | [] => [String c EmptyString]
           | line :: rest => String c line :: rest
           end
  end.

(** Does [c] occur in [s]? *)
Fixpoint occurs (c : ascii) (s : string) : bool :=
  match s with
  | EmptyString => false
  | String d s' => Ascii.eqb c d || occurs c s'
  end.

(** The last character of [s] is a carriage return or a line feed. *)
Fixpoint ends_crlf (s : string) : bool :=
  match s with
  | EmptyString => false
  | String c EmptyString => is_crlf c
  | String _ s' => ends_crlf s'
  end.

(** All characters of [s] are carriage returns or line feeds. *)
Fixpoint all_crlf (s : string) : bool :=
  match s with
  | EmptyString => true
  | String c s' => is_crlf c && all_crlf s'
  end.

Inductive raised : Type := RuntimeError | UnicodeDecodeError.

Inductive outcome (A : Type) : Type :=
| Return (a : A)
| Throw (e : raised).
Arguments Return {A} a.
Arguments Throw {A} e.

Section Process.

Variable bytes : Type.

Record completed : Type := mk_completed {
  stdout : bytes;
  stderr : bytes;
  returncode : Z
}.

(** [Popen(command, ...).communicate()] with the return code. *)
Variable communicate : string -> completed.
(** [b.decode("utf8")]; [None] when the bytes are not UTF-8. *)
Variable decode : bytes -> option string.

(** [bash(command)]; the second component is the error log. *)
Definition bash (command : string) (log : list string)
  : outcome (list string * list string) * list string :=
  let p := communicate command in
  match decode (stdout p) with
  | None => (Throw UnicodeDecodeError, log)
  | Some o =>
      let out := split (rstrip o) in
      match decode (stderr p) with
      | None => (Throw UnicodeDecodeError, log)
      | Some e =>
          let err := split (rstrip e) in
          if negb (Z.eqb (returncode p) 0)
          then (Throw RuntimeError,
                log ++ ["command failed"%string; command] ++ err)
          else (Return (out, err), log)
      end
  end.

End Process.

Lemma split_not_nil (s : string) : split s <> [].
Proof.
  destruct s as [|c s]; simpl; [discriminate |].
  destruct (Ascii.eqb c LF); [discriminate |].
  destruct (split s); discriminate.
Qed.

(** Joining the lines with line feeds gives the text back. *)
Lemma join_split (s : string) :
  String.concat (String LF EmptyString) (split s) = s.
Proof.
  induction s as [|c s IH]; [reflexivity |].
  pose proof (split_not_nil s) as Hne. cbn [split].
  destruct (Ascii.eqb_spec c LF) as [-> | N];
    destruct (split s) as [|l ls]; try contradiction.
  - change (String LF (String.concat (String LF EmptyString) (l :: ls))
            = String LF s).
    now rewrite IH.
  - destruct ls as [|l' ls].
    + cbn [String.concat] in *. now rewrite IH.
    + change (String c (String.concat (String LF EmptyString) (l :: l' :: ls))
              = String c s).
      now rewrite IH.
Qed.

Lemma split_no_LF (s : string) :
  Forall (fun l => occurs LF l = false) (split s).
Proof.
  induction s as [|c s IH]; cbn [split].
  - repeat constructor.
  - pose proof (split_not_nil s) as Hne.
    destruct (Ascii.eqb_spec c LF) as [-> | N].
    + constructor; [reflexivity | exact IH].
    + destruct (split s) as [|l ls]; [contradiction |].
      inversion IH; subst. constructor; [| assumption].
      cbn [occurs]. destruct (Ascii.eqb_spec LF c); [congruence | assumption].
Qed.

Lemma rstrip_empty (s : string) :
  rstrip s = EmptyString -> all_crlf s = true.
Proof.
  induction s as [|c s IH]; simpl; [reflexivity |].
  destruct (rstrip s) eqn:E; [| discriminate].
  destruct (is_crlf c); [| discriminate].
  intros _. now rewrite IH.
Qed.

(** [rstrip] removes a tail made of carriage returns and line feeds and
    nothing else. *)
Lemma rstrip_tail (s : string) :
  exists t, s = (rstrip s ++ t)%string /\ all_crlf t = true.
Proof.
  induction s as [|c s IH]; simpl.
  - exists EmptyString. split; reflexivity.
  - destruct IH as (t & Hs & Ht).
    destruct (rstrip s) as [|d r] eqn:E.
    + destruct (is_crlf c) eqn:Hc.
      * exists (String c s). split; [reflexivity |].
        simpl. rewrite Hc. simpl. now apply rstrip_empty.
      * exists t. simpl in Hs. split; [simpl; now rewrite <- Hs | exact Ht].
    + exists t. split; [| exact Ht]. simpl. simpl in Hs. now rewrite <- Hs.
Qed.

Lemma rstrip_ends (s : string) : ends_crlf (rstrip s) = false.
Proof.
  induction s as [|c s IH]; simpl; [reflexivity |].
  destruct (rstrip s) as [|d r] eqn:E.
  - destruct (is_crlf c) eqn:Hc; simpl; [reflexivity | exact Hc].
  - simpl. simpl in IH. exact IH.
Qed.

(** A text that does not end with a line feed has an empty last line only
    when it is empty. *)
Lemma last_line (s : string) :
  ends_crlf s = false -> last (split s) EmptyString = EmptyString ->
  s = EmptyString.
Proof.
  induction s as [|c s IH]; [reflexivity |].
  intros Hend Hlast. exfalso.
  assert (Hs : s <> EmptyString -> ends_crlf s = false).
  { intros Hne. destruct s; [contradiction | exact Hend]. }
  simpl in Hlast.
  pose proof (split_not_nil s) as Hne.
  destruct (Ascii.eqb_spec c LF) as [-> | N].
  - destruct s as [|d s].
    + simpl in Hend. unfold is_crlf in Hend.
      rewrite Ascii.eqb_refl, orb_true_r in Hend. discriminate.
    + destruct (split (String d s)) as [|l ls] eqn:E; [contradiction |].
      assert (Hd : String d s = EmptyString).
      { apply IH; [apply Hs; discriminate |].
        destruct ls; [exact Hlast | exact Hlast]. }
      discriminate.
  - destruct (split s) as [|l ls] eqn:E; [contradiction |].
    destruct ls as [|l' ls].
    + simpl in Hlast. discriminate.
    + destruct s as [|d s]; [simpl in E; discriminate |].
      assert (Hd : String d s = EmptyString).
      { apply IH; [apply Hs; discriminate | exact Hlast]. }
      discriminate.
Qed.


Definition newline : string := String LF EmptyString.

(** The lines of a stream as [bash] returns them: joined by line feeds they
    give the decoded text without its trailing carriage returns and line
    feeds; there is at least one line, no line holds a line feed, and the
    last line is empty only when the text was blank, in which case the list
    is [['']]. *)
Definition lines_of (text : string) (lines : list string) : Prop :=
  String.concat newline lines = rstrip text /\
  lines <> [] /\
  Forall (fun l => occurs LF l = false) lines /\
  (last lines EmptyString = EmptyString ->
   lines = [EmptyString] /\ all_crlf text = true).

Lemma lines_of_split (text : string) : lines_of text (split (rstrip text)).
Proof.
  split; [apply join_split | split; [apply split_not_nil | split]].
  - apply split_no_LF.
  - intros Hlast.
    assert (E : rstrip text = EmptyString).
    { apply last_line; [apply rstrip_ends | exact Hlast]. }
    rewrite E. split; [reflexivity | now apply rstrip_empty].
Qed.

(** When both streams decode and the return code is 0, [bash] returns the
    lines of the two streams and logs nothing. *)
Theorem bash_success (bytes : Type) (communicate : string -> completed bytes)
    (decode : bytes -> option string) (command o e : string)
    (log : list string) :
  decode (stdout bytes (communicate command)) = Some o ->
  decode (stderr bytes (communicate command)) = Some e ->
  returncode bytes (communicate command) = 0 ->
  exists out err,
    bash bytes communicate decode command log = (Return (out, err), log) /\
    lines_of o out /\ lines_of e err.
Proof.
  intros Ho He Hrc. exists (split (rstrip o)), (split (rstrip e)).
  unfold bash. rewrite Ho, He, Hrc. cbn.
  split; [reflexivity | split; apply lines_of_split].
Qed.

(** When both streams decode and the return code is not 0, [bash] raises
    [RuntimeError] after logging "command failed", the command and every
    line of the error stream, at least three entries; when a stream does
    not decode it raises [UnicodeDecodeError] and logs nothing, whatever
    the return code. *)
Theorem bash_failure (bytes : Type) (communicate : string -> completed bytes)
    (decode : bytes -> option string) (command o e : string)
    (log : list string) :
  (decode (stdout bytes (communicate command)) = Some o ->
   decode (stderr bytes (communicate command)) = Some e ->
   returncode bytes (communicate command) <> 0 ->
   exists err,
     bash bytes communicate decode command log
     = (Throw RuntimeError, log ++ "command failed"%string :: command :: err) /\
     lines_of e err /\
     (3 <= length ("command failed"%string :: command :: err))%nat) /\
  (decode (stdout bytes (communicate command)) = None \/
   decode (stderr bytes (communicate command)) = None ->
   bash bytes communicate decode command log = (Throw UnicodeDecodeError, log)).
Proof.
  split.
  - intros Ho He Hrc. exists (split (rstrip e)).
    unfold bash. rewrite Ho, He. apply Z.eqb_neq in Hrc. rewrite Hrc. cbn.
    split; [reflexivity | split; [apply lines_of_split |]].
    pose proof (split_not_nil (rstrip e)) as Hne.
    destruct (split (rstrip e)); [contradiction | cbn; lia].
  - intros [H | H]; unfold bash; rewrite H; [reflexivity |].
    destruct (decode (stdout bytes (communicate command))); reflexivity.
Qed.

(** A command that prints two lines and succeeds, and one that fails. *)
Definition two_lines : string :=
  String "a" (String LF (String "b" (String CR (String LF EmptyString)))).

Lemma bash_success_witness :
  exists out err,
    bash string (fun _ => mk_completed string two_lines EmptyString 0)
      (fun b => Some b) "ls"%string []
    = (Return (out, err), []) /\
    lines_of two_lines out /\ lines_of EmptyString err.
Proof.
  apply (bash_success string
           (fun _ => mk_completed string two_lines EmptyString 0)
           (fun b => Some b) "ls"%string two_lines EmptyString []);
    reflexivity.
Defined.

Lemma bash_failure_witness :
  (exists err,
     bash string (fun _ => mk_completed string EmptyString two_lines 2)
       (fun b => Some b) "ls"%string []
     = (Throw RuntimeError, "command failed"%string :: "ls"%string :: err) /\
     lines_of two_lines err /\
     (3 <= length ("command failed"%string :: "ls"%string :: err))%nat) /\
  bash string (fun _ => mk_completed string EmptyString two_lines 2)
    (fun _ => None) "ls"%string []
  = (Throw UnicodeDecodeError, []).
Proof.
  split.
  - apply (bash_failure string
             (fun _ => mk_completed string EmptyString two_lines 2)
             (fun b => Some b) "ls"%string EmptyString two_lines []);
      [reflexivity | reflexivity | discriminate].
  - apply (bash_failure string
             (fun _ => mk_completed string EmptyString two_lines 2)
             (fun _ => None) "ls"%string EmptyString two_lines []).
    now left.
Defined.

Example bash_two_lines :
  split (rstrip two_lines) = ["a"%string; "b"%string].
Proof. reflexivity. Qed.

End Shell.
